(** * streamlit_finance_chart: the data pipeline of [app.py]

    A shallow embedding of the data-handling parts of [app.py]:
    [load_sp500_components], [load_quotes], [format_symbol_label] and the
    parts of [main] that choose a company and build [data_view] (the window
    of quotes and its moving-average columns).

    Conventions of the embedding:
    - a pandas cell is a binary64 float, as in the frames of quotes; the null
      of a cell is NaN;
    - a date (a label of the index) is an integer, a day number;
    - a Python call either returns or raises: [Outcome];
    - frame objects live in a store, since [main] changes [data] and
      [data_view] in place. *)

From Stdlib Require Import ZArith.
From Stdlib Require Import Floats.PrimFloat Numbers.Cyclic.Int63.Uint63.
From stdpp Require Import gmap strings list pretty sorting.

Open Scope Z_scope.

(** ** Python outcomes *)

Module Py.

(** The exception classes the pipeline can meet.  [Other] stands for a class
    raised inside [requests] or [yfinance]. *)
Inductive exn : Type :=
  | KeyError
  | ValueError
  | Other (cls : string).

Inductive Outcome (A : Type) : Type :=
  | Returned (a : A)
  | Raised (e : exn).
Arguments Returned {A} a.
Arguments Raised {A} e.

Definition bind {A B} (o : Outcome A) (k : A → Outcome B) : Outcome B :=
  match o with
  | Returned a => k a
  | Raised e => Raised e
  end.

Definition returns {A} (o : Outcome A) : bool :=
  match o with Returned _ => true | Raised _ => false end.

(** [l[start:]] for a Python integer [start]: a negative start counts from the
    end, and both cases are clipped to the length. *)
Definition slice_start (start : Z) (len : nat) : nat :=
  Z.to_nat (if start <? 0 then Z.max (start + Z.of_nat len) 0
            else Z.min start (Z.of_nat len)).

Definition slice_from {A} (start : Z) (l : list A) : list A :=
  drop (slice_start start (length l)) l.

End Py.
Export Py.

#[global] Instance outcome_ret : MRet Outcome := @Returned.
#[global] Instance outcome_bind : MBind Outcome := λ A B k o, Py.bind o k.

(** ** Frames and series, as pandas has them *)

Module Pandas.

Abbreviation cell := float.
Abbreviation date := Z.

(** The null of a float cell. *)
Abbreviation NaN := PrimFloat.nan.

(** [isna]: a float cell is null when it is NaN, the one float that differs
    from itself.  An infinite value is not null. *)
Definition isna (c : cell) : bool := negb (c =? c)%float.

(** A [Series]: one value per label, in order. *)
Abbreviation Series := (list (date * cell)).

(** A [DataFrame] with flat column labels, kept row by row: a row is its index
    label and one cell per column. *)
Record DataFrame := mkDataFrame {
  index_name : option string;
  columns : list string;
  rows : list (date * list cell)
}.

Definition index (f : DataFrame) : list date := (rows f).*1.

(** Every row has one cell per column. *)
Definition rectangular (f : DataFrame) : Prop :=
  Forall (λ r, length r.2 = length (columns f)) (rows f).

(** [DataFrame.dropna()]: keep the rows in which no cell is null. *)
Definition dropna (f : DataFrame) : DataFrame :=
  mkDataFrame (index_name f) (columns f)
    (filter (λ r, Is_true (forallb (λ c, negb (isna c)) r.2)) (rows f)).

(** [f[-n:]] on a frame slices its rows by position. *)
Definition getitem_tail (n : Z) (f : DataFrame) : DataFrame :=
  mkDataFrame (index_name f) (columns f) (slice_from (- n) (rows f)).

(** Positions of the columns labelled [lbl]. *)
Fixpoint positions_from (k : nat) (lbl : string) (cols : list string) : list nat :=
  match cols with
  | [] => []
  | c :: cols' =>
      if decide (c = lbl) then k :: positions_from (S k) lbl cols'
      else positions_from (S k) lbl cols'
  end.

Definition positions (lbl : string) (cols : list string) : list nat :=
  positions_from 0 lbl cols.

Definition cell_at (k : nat) (r : list cell) : cell := default NaN (r !! k).

(** [f[[lbl1; ...]]]: a new frame with the columns of these labels; a label
    that no column carries is a [KeyError]. *)
Definition getitem_list (lbls : list string) (f : DataFrame) : Outcome DataFrame :=
  if forallb (λ l, bool_decide (positions l (columns f) ≠ [])) lbls then
    let ks := lbls ≫= (λ l, positions l (columns f)) in
    Returned (mkDataFrame (index_name f)
                (lbls ≫= (λ l, filter (λ c, c = l) (columns f)))
                ((λ r, (r.1, (λ k, cell_at k r.2) <$> ks)) <$> rows f))
  else Raised KeyError.

(** [f[lbl]]: the column as a series.  No such column is a [KeyError].  With
    the label carried by several columns pandas hands back a frame, which
    [main] would then fail to store as one column: a [ValueError]. *)
Definition getitem (lbl : string) (f : DataFrame) : Outcome Series :=
  match positions lbl (columns f) with
  | [] => Raised KeyError
  | [k] => Returned ((λ r, (r.1, cell_at k r.2)) <$> rows f)
  | _ => Raised ValueError
  end.

(** *** Rolling mean

    [rolling(period).mean()] is pandas' [roll_mean]: one pass over the
    values that keeps a running sum in binary64, with Kahan compensation,
    adding the value that enters the window and removing the one that
    leaves it. *)

(** The running state of [roll_mean]. *)
Record MeanState := mkMeanState {
  nobs : Z;
  sum_x : float;
  neg_ct : Z;
  compensation_add : float;
  compensation_remove : float;
  num_consecutive_same_value : Z;
  prev_value : float
}.

(** The state a window is set up with; [first] is the value at its start. *)
Definition fresh_state (first : float) : MeanState :=
  mkMeanState 0 0%float 0 0%float 0%float 0 first.

(** [add_mean]: a value that is not NaN enters the sum. *)
Definition add_mean (st : MeanState) (val : float) : MeanState :=
  if (val =? val)%float then
    let y := (val - compensation_add st)%float in
    let t := (sum_x st + y)%float in
    mkMeanState (nobs st + 1) t
      (if get_sign val then neg_ct st + 1 else neg_ct st)
      (t - sum_x st - y)%float
      (compensation_remove st)
      (if (val =? prev_value st)%float
       then num_consecutive_same_value st + 1 else 1)
      val
  else st.

(** [remove_mean]: a value that is not NaN leaves the sum. *)
Definition remove_mean (st : MeanState) (val : float) : MeanState :=
  if (val =? val)%float then
    let y := (- val - compensation_remove st)%float in
    let t := (sum_x st + y)%float in
    mkMeanState (nobs st - 1) t
      (if get_sign val then neg_ct st - 1 else neg_ct st)
      (compensation_add st)
      (t - sum_x st - y)%float
      (num_consecutive_same_value st)
      (prev_value st)
  else st.

(** [calc_mean]: the value of a window, NaN with fewer than [minp]
    observations. *)
Definition calc_mean (minp : Z) (st : MeanState) : float :=
  if (minp <=? nobs st) && (0 <? nobs st) then
    let result := (sum_x st / of_uint63 (Uint63.of_Z (nobs st)))%float in
    if nobs st <=? num_consecutive_same_value st then prev_value st
    else if (neg_ct st =? 0) && (result <? 0)%float then 0%float
    else if (neg_ct st =? nobs st) && (0 <? result)%float then 0%float
    else result
  else NaN.

(** The bounds of the window that ends at position [i], for a window of [p]
    positions: [start <= j < end]. *)
Definition window_end (p i : nat) : nat :=
  if decide (p = 0%nat) then i else S i.

Definition window_start (p i : nat) : nat := (window_end p i - p)%nat.

(** [values[a:b]] *)
Definition between {A} (a b : nat) (l : list A) : list A :=
  take (b - a) (drop a l).

(** The loop of [roll_mean] from position [i] on, [todo] positions to go,
    with the state the position before left. *)
Fixpoint roll_mean_from (values : list float) (p : nat) (minp : Z)
    (i todo : nat) (st : MeanState) : list float :=
  match todo with
  | O => []
  | S todo' =>
      let s := window_start p i in
      let e := window_end p i in
      let st' :=
        if decide (i = 0%nat ∨ window_end p (Nat.pred i) ≤ s)%nat then
          foldl add_mean (fresh_state (default NaN (values !! s)))
            (between s e values)
        else
          foldl add_mean
            (foldl remove_mean st
               (between (window_start p (Nat.pred i)) s values))
            (between (window_end p (Nat.pred i)) e values) in
      calc_mean minp st' :: roll_mean_from values p minp (S i) todo' st'
  end.

Definition roll_mean (values : list float) (p : nat) (minp : Z) : list float :=
  roll_mean_from values p minp 0 (length values) (fresh_state NaN).

(** The values as the rolling functions take them: an infinite value counts
    as NaN. *)
Definition prep_values (values : list float) : list float :=
  (λ v, if is_infinity v then NaN else v) <$> values.

(** [s.rolling(period).mean()], with [min_periods] left at its default, the
    window size; a negative window is a [ValueError]. *)
Definition rolling_mean (period : Z) (s : Series) : Outcome Series :=
  if period <? 0 then Raised ValueError
  else
    Returned (zip s.*1 (roll_mean (prep_values s.*2) (Z.to_nat period) period)).

(** *** Alignment on labels *)

Fixpoint lookup_label (d : date) (s : Series) : option cell :=
  match s with
  | [] => None
  | (d', c) :: s' => if decide (d' = d) then Some c else lookup_label d s'
  end.

(** [s.reindex(target)]: the same index gives a copy; otherwise the labels of
    [s] must be unique ([ValueError] if not) and every target label gets its
    value in [s], or NaN when [s] has no such label. *)
Definition reindex (target : list date) (s : Series) : Outcome Series :=
  if decide (s.*1 = target) then Returned s
  else if decide (NoDup s.*1) then
    Returned ((λ d, (d, default NaN (lookup_label d s))) <$> target)
  else Raised ValueError.

(** Store [v] in position [k] of a row. *)
Definition set_cell (k : nat) (v : cell) (r : list cell) : list cell := <[k := v]> r.

(** [f[lbl] = s], as a new frame value: [s] is aligned on the index of [f],
    then written over the columns labelled [lbl], or appended as a new last
    column when there is none. *)
Definition setitem (lbl : string) (s : Series) (f : DataFrame) : Outcome DataFrame :=
  a ← reindex (index f) s;
  match positions lbl (columns f) with
  | [] =>
      Returned (mkDataFrame (index_name f) (columns f ++ [lbl])
                  (zip_with (λ r v, (r.1, r.2 ++ [v])) (rows f) a.*2))
  | ks =>
      Returned (mkDataFrame (index_name f) (columns f)
                  (zip_with (λ r v, (r.1, foldr (λ k, set_cell k v) r.2 ks))
                     (rows f) a.*2))
  end.

End Pandas.
Export Pandas.

(** ** The functions of [app.py] *)

Module App.

(** *** [load_sp500_components] *)

(** A table as [pd.read_html] parses it: header labels and rows of text. *)
Record Table := mkTable {
  header : list string;
  body : list (list string)
}.

(** The components frame: rows keyed by the column that became the index. *)
Record Components := mkComponents {
  key_name : string;
  fields : list string;
  entries : list (string * list string)
}.

Definition keys (c : Components) : list string := (entries c).*1.

(** [t.set_index(lbl, inplace=True)]: the column leaves the columns and
    becomes the index.  [verify_integrity] keeps its default, [False]: the
    values are taken as they are.  A label no column carries is a [KeyError];
    a label carried by several columns gives two-dimensional index data, a
    [ValueError]. *)
Definition set_index (lbl : string) (t : Table) : Outcome Components :=
  match positions lbl (header t) with
  | [] => Raised KeyError
  | [k] =>
      Returned (mkComponents lbl (delete k (header t))
                  ((λ r, (default "" (r !! k), delete k r)) <$> body t))
  | _ => Raised ValueError
  end.

(** [fetched] is what [pd.read_html] finds in the page that [requests.get]
    brings back, or the exception of the request.  [pd.read_html] on a page
    without a table is a [ValueError]. *)
Definition load_sp500_components (fetched : Outcome (list Table)) : Outcome Components :=
  tables ← fetched;
  match tables with
  | [] => Raised ValueError
  | components :: _ => set_index "Symbol" components
  end.

(** *** [load_quotes] *)

(** Column labels of the frame [yf.download] hands back: flat, or a
    [MultiIndex] whose labels have a level 0 and further levels. *)
Inductive ColumnIndex : Type :=
  | FlatIndex (labels : list string)
  | MultiIndex (labels : list (string * list string)).

Record Download := mkDownload {
  d_index_name : option string;
  d_columns : ColumnIndex;
  d_rows : list (date * list cell)
}.

Definition get_level_values_0 (c : ColumnIndex) : list string :=
  match c with
  | FlatIndex labels => labels
  | MultiIndex labels => labels.*1
  end.

Definition width (c : ColumnIndex) : nat :=
  match c with
  | FlatIndex labels => length labels
  | MultiIndex labels => length labels
  end.

(** [download symbol] stands for
    [yf.download(symbol, period='max', auto_adjust=False)]. *)
Definition load_quotes (download : string → Outcome Download) (symbol : string)
  : Outcome DataFrame :=
  data ← download symbol;
  mret (mkDataFrame (d_index_name data)
          (match d_columns data with
           | MultiIndex _ => get_level_values_0 (d_columns data)
           | FlatIndex labels => labels
           end)
          (d_rows data)).

(** *** The store of frame objects *)

Definition loc := positive.
Abbreviation Store := (gmap loc DataFrame).

(** A computation on the store that returns or raises. *)
Definition Run (A : Type) : Type := Store → Outcome (A * Store).

#[global] Instance run_ret : MRet Run := λ A a σ, Returned (a, σ).
#[global] Instance run_bind : MBind Run := λ A B k m σ,
  match m σ with
  | Returned (a, σ') => k a σ'
  | Raised e => Raised e
  end.

(** A new frame object. *)
Definition new (f : DataFrame) : Run loc :=
  λ σ, let l := fresh (dom σ) in Returned (l, <[l := f]> σ).

(** The frame a reference stands for now.  References of [main] are never
    dangling; the store being a partial map, that case is an error here. *)
Definition load (l : loc) : Run DataFrame :=
  λ σ, match σ !! l with
       | Some f => Returned (f, σ)
       | None => Raised (Other "ReferenceError")
       end.

(** Change a frame object in place. *)
Definition store (l : loc) (f : DataFrame) : Run unit :=
  λ σ, Returned (tt, <[l := f]> σ).

Definition lift {A} (o : Outcome A) : Run A :=
  λ σ, match o with
       | Returned a => Returned (a, σ)
       | Raised e => Raised e
       end.

(** *** [main], lines 70 to 87 *)

(** What the sidebar widgets hand back in one run of the script: the slider
    "Number of Quotes", and for each of the check boxes "SMA" and "SMA 2"
    the value of its period slider when the box is ticked.  The first slider
    is created with the minimum 30, the maximum [min(2000, len(data))] and
    the value 500, the period sliders with the bounds 5 and 500. *)
Record Widgets := mkWidgets {
  number_of_quotes : Z;
  sma : option Z;
  sma2 : option Z
}.

(** [data[-section:][['Adj Close']].copy()]: three new objects. *)
Definition window (data : loc) (section : Z) : Run loc :=
  d ← load data;
  tail ← new (getitem_tail section d);
  t ← load tail;
  s ← lift (getitem_list ["Adj Close"] t);
  selected ← new s;
  c ← load selected;
  new c.

(** [data_view[f"{prefix}{period}"] =
       data['Adj Close'].rolling(period).mean().reindex(data_view.index)] *)
Definition add_sma (prefix : string) (data data_view : loc) (period : Z) : Run unit :=
  d ← load data;
  close ← lift (getitem "Adj Close" d);
  rolled ← lift (rolling_mean period close);
  v ← load data_view;
  aligned ← lift (reindex (index v) rolled);
  v' ← lift (setitem (prefix +:+ pretty period) aligned v);
  store data_view v'.

Definition when_ticked (box : option Z) (body : Z → Run unit) : Run unit :=
  match box with
  | Some period => body period
  | None => mret tt
  end.

(** Lines 76 to 87. *)
Definition build_view (data : loc) (w : Widgets) : Run loc :=
  data_view ← window data (number_of_quotes w);
  _ ← when_ticked (sma w) (add_sma "SMA " data data_view);
  _ ← when_ticked (sma2 w) (add_sma "SMA2 " data data_view);
  mret data_view.

Definition set_index_name (l : loc) (name : option string) : Run unit :=
  f ← load l;
  store l (mkDataFrame name (columns f) (rows f)).

(** Lines 70 to 87: the references [data] and [data_view]. *)
Definition main_quotes (download : string → Outcome Download) (asset : string)
    (w : Widgets) : Run (loc * loc) :=
  quotes ← lift (load_quotes download asset);
  q ← new quotes;
  f ← load q;
  data ← new (dropna f);
  _ ← set_index_name data None;
  data_view ← build_view data w;
  mret (data, data_view).

(** The frames behind [data] and [data_view] when the script reaches the
    chart, started on an empty store. *)
Definition run_main (download : string → Outcome Download) (asset : string)
    (w : Widgets) : Outcome (DataFrame * DataFrame) :=
  match main_quotes download asset w ∅ with
  | Returned ((data, data_view), σ) =>
      match σ !! data, σ !! data_view with
      | Some d, Some v => Returned (d, v)
      | _, _ => Raised (Other "ReferenceError")
      end
  | Raised e => Raised e
  end.

End App.
Export App.

(** ** The company side of [app.py] *)

Module Companies.

(** What [components.loc[label]] hands back: the row as a series when the
    label occurs once in the index, a frame of the rows when it occurs
    several times. *)
Inductive Located : Type :=
  | OneRow (values : list string)
  | ManyRows (values : list (list string)).

(** [components.loc[label]]; a label the index does not have is a
    [KeyError]. *)
Definition loc_getitem (label : string) (c : Components) : Outcome Located :=
  match filter (λ e, e.1 = label) (entries c) with
  | [] => Raised KeyError
  | [e] => Returned (OneRow e.2)
  | es => Returned (ManyRows es.*2)
  end.

(** What reading a column label as an attribute hands back: a cell, a series
    of cells or a frame of cells. *)
Inductive Value : Type :=
  | Scalar (s : string)
  | Column (cells : list string)
  | Block (cells : list (list string)).

Definition text_at (k : nat) (r : list string) : string := default "" (r !! k).

(** [company.name] for a label [name] that is no attribute of pandas' own, as
    "Security": the cells under that label, and an [AttributeError] when no
    column carries it. *)
Definition getattr (name : string) (labels : list string) (company : Located)
  : Outcome Value :=
  match positions name labels, company with
  | [], _ => Raised (Other "AttributeError")
  | [k], OneRow r => Returned (Scalar (text_at k r))
  | ks, OneRow r => Returned (Column ((λ k, text_at k r) <$> ks))
  | [k], ManyRows rs => Returned (Column (text_at k <$> rs))
  | ks, ManyRows rs => Returned (Block ((λ r, (λ k, text_at k r) <$> ks) <$> rs))
  end.

(** How a value is written into an f-string: a cell is its text; for a series
    or a frame [show] stands for the display pandas gives it. *)
Definition str (show : Value → string) (v : Value) : string :=
  match v with
  | Scalar s => s
  | _ => show v
  end.

(** [format_symbol_label], lines 34 to 36. *)
Definition format_symbol_label (show : Value → string) (symbol : string)
    (components : Components) : Outcome string :=
  company ← loc_getitem symbol components;
  security ← getattr "Security" (fields components) company;
  mret (symbol +:+ " - " +:+ str show security).

(** The order of Python strings, code point by code point; on the bytes of
    UTF-8 text it is the order of the bytes. *)
Definition str_le : relation string := λ a b, String.leb a b = true.

#[global] Instance str_le_dec : RelDecision str_le.
Proof. intros a b. unfold str_le. apply _. Defined.

(** [index.sort_values()] on an index of strings. *)
Definition sort_values (labels : list string) : list string :=
  merge_sort str_le labels.

(** The options of the select box "Choose an asset", line 56. *)
Definition asset_options (components : Components) : list string :=
  sort_values (keys components).

(** [components[[lbl1; ...]]]: the columns of these labels, in the order
    asked; a label that no column carries is a [KeyError]. *)
Definition getitem_fields (lbls : list string) (c : Components) : Outcome Components :=
  if forallb (λ l, bool_decide (positions l (fields c) ≠ [])) lbls then
    let ks := lbls ≫= (λ l, positions l (fields c)) in
    Returned (mkComponents (key_name c)
                (lbls ≫= (λ l, filter (λ f, f = l) (fields c)))
                ((λ e, (e.1, (λ k, text_at k e.2) <$> ks)) <$> entries c))
  else Raised KeyError.

(** The frame behind "View Companies List", line 50. *)
Definition companies_list (components : Components) : Outcome Components :=
  getitem_fields ["Security"; "GICS Sector"; "Date added"; "Founded"] components.

(** [company_info = components.loc[asset]] and the title
    [company_info.Security], lines 61 and 67. *)
Definition company_title (asset : string) (components : Components) : Outcome Value :=
  company_info ← loc_getitem asset components;
  getattr "Security" (fields components) company_info.

End Companies.
Export Companies.

(** ** Vocabulary of the statements *)

(** A frame of quotes as [main] expects it from [load_quotes]: one cell per
    column in every row, one column labelled "Adj Close", no date twice. *)
Record quote_frame (f : DataFrame) : Prop := mk_quote_frame {
  qf_rectangular : rectangular f;
  qf_adj_close : length (positions "Adj Close" (columns f)) = 1%nat;
  qf_dates : NoDup (index f)
}.

(** The ranges the specification gives the widgets, for [n] rows of data: a
    window size from 30 to [min(2000, n)] and periods from 5 to 500. *)
Definition specified_ranges (n : nat) (w : Widgets) : Prop :=
  30 ≤ number_of_quotes w ≤ Z.min 2000 (Z.of_nat n) ∧
  (∀ p, sma w = Some p → 5 ≤ p ≤ 500) ∧
  (∀ p, sma2 w = Some p → 5 ≤ p ≤ 500).

(** Every ticked period is at least [lo]. *)
Definition periods_at_least (lo : Z) (w : Widgets) : Prop :=
  ∀ p, sma w = Some p ∨ sma2 w = Some p → lo ≤ p.

(** The two overlays of a run: the prefix of the column label and the period
    when the box is ticked. *)
Definition overlays (w : Widgets) : list (string * option Z) :=
  [("SMA ", sma w); ("SMA2 ", sma2 w)].

(** The field names of a quote. *)
Definition quote_fields : list string :=
  ["Open"; "High"; "Low"; "Close"; "Adj Close"; "Volume"].


(** *** A provider in the manner of yfinance *)

(** The histories a provider has, by symbol. *)
Definition Market := string → option Download.

(** The frame for a symbol without data: the fields, and no row. *)
Definition no_data (symbol : string) : Download :=
  mkDownload (Some "Date")
    (MultiIndex ((λ f, (f, [symbol])) <$>
                 ["Adj Close"; "Close"; "High"; "Low"; "Open"; "Volume"]))
    [].

(** [yf.download] on a market: a symbol the provider does not know is reported
    on the log and answered with a frame without rows; nothing is raised. *)
Definition yf_download (m : Market) (symbol : string) : Outcome Download :=
  Returned (default (no_data symbol) (m symbol)).

Definition empty_market : Market := λ _, None.

(** *** Sample data *)

Definition sample_fields : list string :=
  ["Adj Close"; "Close"; "High"; "Low"; "Open"; "Volume"].

(** The float of a small natural number. *)
Definition float_of_nat (i : nat) : float :=
  of_uint63 (Uint63.of_Z (Z.of_nat i)).

(** [n] daily bars; the bar of day 3 lacks its volume. *)
Definition sample_rows (n : nat) : list (date * list cell) :=
  (λ i, (Z.of_nat i,
         replicate 5 (float_of_nat i)
         ++ [if decide (i = 3%nat) then NaN else 1000%float]))
  <$> seq 1 n.

Definition sample_download (symbol : string) : Outcome Download :=
  Returned (mkDownload (Some "Date")
              (MultiIndex ((λ f, (f, [symbol])) <$> sample_fields))
              (sample_rows 40)).

Definition sample_quotes : DataFrame :=
  mkDataFrame (Some "Date") sample_fields (sample_rows 40).

(** A window of 30 quotes, a short average and one longer than the window. *)
Definition sample_widgets : Widgets := mkWidgets 30 (Some 5) (Some 35).

Definition sample_store : Store := {[ 7%positive := sample_quotes ]}.

Definition sample_table : Table :=
  mkTable ["Symbol"; "Security"; "GICS Sector"]
    [["MMM"; "3M"; "Industrials"];
     ["AOS"; "A. O. Smith"; "Industrials"]].

Definition duplicated_table : Table :=
  mkTable ["Symbol"; "Security"; "GICS Sector"]
    [["MMM"; "3M"; "Industrials"];
     ["AOS"; "A. O. Smith"; "Industrials"];
     ["MMM"; "3M again"; "Industrials"]].

Definition unkeyed_table : Table :=
  mkTable ["Ticker"; "Security"] [["MMM"; "3M"]].

(** *** More sample data *)

(** The header of the page's table, and three of its rows. *)
Definition listed_table : Table :=
  mkTable ["Symbol"; "Security"; "GICS Sector"; "GICS Sub-Industry";
           "Headquarters Location"; "Date added"; "CIK"; "Founded"]
    [["MMM"; "3M"; "Industrials"; "Industrial Conglomerates";
      "Saint Paul, Minnesota"; "1957-03-04"; "66740"; "1902"];
     ["AOS"; "A. O. Smith"; "Industrials"; "Building Products";
      "Milwaukee, Wisconsin"; "2017-07-26"; "91142"; "1916"];
     ["ABT"; "Abbott Laboratories"; "Health Care"; "Health Care Equipment";
      "North Chicago, Illinois"; "1957-03-04"; "1800"; "1888"]].

Definition show_nothing : Value → string := λ _, "".

(** Quotes whose day 2 comes twice. *)
Definition repeated_date_quotes : DataFrame :=
  mkDataFrame (Some "Date") sample_fields
    ((2, replicate 6 7%float) :: sample_rows 40).

Definition repeated_date_download (symbol : string) : Outcome Download :=
  Returned (mkDownload (Some "Date") (FlatIndex sample_fields)
              (rows repeated_date_quotes)).

(** Quotes without the column of adjusted closes. *)
Definition unadjusted_download (symbol : string) : Outcome Download :=
  Returned (mkDownload (Some "Date") (FlatIndex ["Close"; "Volume"])
              [(1, [5%float; 1000%float])]).





(** The labels of the ticked overlays, in the order [main] adds them. *)
Definition overlay_labels (w : Widgets) : list string :=
  omap (λ o, (λ p, o.1 +:+ pretty p) <$> o.2) (overlays w).

(** ** Closed forms of what [main] builds

    These are not part of the embedding: the lemmas below show that the
    programs of [App] compute them. *)

(** The cells of column [k]. *)
Definition close_cells (k : nat) (d : DataFrame) : list cell :=
  (λ r, cell_at k r.2) <$> rows d.

Definition close_series (k : nat) (d : DataFrame) : Series :=
  zip (index d) (close_cells k d).

(** The rolling mean of column [k] over all of [d]. *)
Definition rolled_cells (p : Z) (k : nat) (d : DataFrame) : list cell :=
  roll_mean (prep_values (close_cells k d)) (Z.to_nat p) p.

Definition rolled_series_of (p : Z) (k : nat) (d : DataFrame) : Series :=
  zip (index d) (rolled_cells p k d).

(** [v] with one more column. *)
Definition with_column (lbl : string) (vals : list cell) (v : DataFrame) : DataFrame :=
  mkDataFrame (index_name v) (columns v ++ [lbl])
    (zip_with (λ r c, (r.1, r.2 ++ [c])) (rows v) vals).

(** The window before any overlay. *)
Definition base_view (n : Z) (k : nat) (d : DataFrame) : DataFrame :=
  mkDataFrame (index_name d) ["Adj Close"]
    ((λ r, (r.1, [cell_at k r.2])) <$> slice_from (- n) (rows d)).

Definition with_overlay (prefix : string) (box : option Z) (n : Z) (k : nat)
    (d v : DataFrame) : DataFrame :=
  match box with
  | Some p => with_column (prefix +:+ pretty p) (slice_from (- n) (rolled_cells p k d)) v
  | None => v
  end.

Definition final_view (w : Widgets) (k : nat) (d : DataFrame) : DataFrame :=
  with_overlay "SMA2 " (sma2 w) (number_of_quotes w) k d
    (with_overlay "SMA " (sma w) (number_of_quotes w) k d
       (base_view (number_of_quotes w) k d)).

(** The frame behind [data] once its index has lost its name. *)
Definition data_of (quotes : DataFrame) : DataFrame :=
  mkDataFrame None (columns quotes) (rows (dropna quotes)).


(** ** Slices and zips *)

Section slices.

Lemma slice_start_le start len : (slice_start start len ≤ len)%nat.
Proof. unfold slice_start. case_match; lia. Qed.

Lemma slice_from_fmap {A B} (f : A → B) start (l : list A) :
  slice_from start (f <$> l) = f <$> slice_from start l.
Proof. unfold slice_from. by rewrite length_fmap, fmap_drop. Qed.

Lemma slice_from_length {A} start (l : list A) :
  length (slice_from start l) = (length l - slice_start start (length l))%nat.
Proof. unfold slice_from. by rewrite length_drop. Qed.

Lemma slice_tail_length {A} (n : Z) (l : list A) :
  1 ≤ n → length (slice_from (- n) l) = Z.to_nat (Z.min n (Z.of_nat (length l))).
Proof.
  intros Hn. rewrite slice_from_length. unfold slice_start.
  case_match; [|lia]. lia.
Qed.

Lemma drop_zip {A B} m (a : list A) (b : list B) :
  drop m (zip a b) = zip (drop m a) (drop m b).
Proof.
  revert a b. induction m as [|m IH]; intros [|x a] [|y b]; simpl; try done.
  by destruct (drop m a).
Qed.

Lemma slice_from_zip {A B} s (a : list A) (b : list B) :
  length a = length b →
  slice_from s (zip a b) = zip (slice_from s a) (slice_from s b).
Proof.
  intros H. unfold slice_from. rewrite length_zip, <- H, Nat.min_id.
  apply drop_zip.
Qed.

Lemma fst_zip_same {A B} (l : list A) (l' : list B) :
  length l = length l' → (zip l l').*1 = l.
Proof. intros H. apply fst_zip. lia. Qed.

Lemma snd_zip_same {A B} (l : list A) (l' : list B) :
  length l = length l' → (zip l l').*2 = l'.
Proof. intros H. apply snd_zip. lia. Qed.

Lemma drop_all_or_nothing {A B} m (l : list A) (l' : list B) :
  drop m l = l → length l' = length l → drop m l' = l'.
Proof.
  intros Hd Hlen. apply (f_equal length) in Hd. rewrite length_drop in Hd.
  destruct m as [|m]; [done|]. destruct l' as [|b l']; [done|].
  simpl in Hlen. lia.
Qed.

End slices.

(** ** Column positions *)

Section column_positions.

Lemma positions_from_app k lbl a b :
  positions_from k lbl (a ++ b)
  = positions_from k lbl a ++ positions_from (k + length a) lbl b.
Proof.
  revert k. induction a as [|c a IH]; intros k; simpl.
  - by rewrite Nat.add_0_r.
  - rewrite IH. replace (S k + length a)%nat with (k + S (length a))%nat by lia.
    by case_decide.
Qed.

Lemma positions_from_bounds k lbl cols i :
  i ∈ positions_from k lbl cols → (k ≤ i < k + length cols)%nat.
Proof.
  revert k. induction cols as [|c cols IH]; intros k; simpl.
  - by intros ?%elem_of_nil.
  - case_decide.
    + intros [->|Hi%IH]%elem_of_cons; lia.
    + intros Hi%IH. lia.
Qed.

Lemma positions_from_filter k lbl cols :
  filter (λ c, c = lbl) cols = replicate (length (positions_from k lbl cols)) lbl.
Proof.
  revert k. induction cols as [|c cols IH]; intros k; simpl; [done|].
  rewrite filter_cons. case_decide; simpl; [subst; f_equal|]; apply IH.
Qed.

Lemma positions_from_nil k lbl cols :
  positions_from k lbl cols = [] ↔ lbl ∉ cols.
Proof.
  revert k. induction cols as [|c cols IH]; intros k; simpl.
  - split; [intros _; apply not_elem_of_nil|done].
  - rewrite not_elem_of_cons. case_decide as Hc.
    + split; [done|]. intros [Hne _]. by destruct Hne.
    + rewrite IH. split; [intros ?; split; [congruence|done]|by intros [_ ?]].
Qed.

Lemma positions_snoc_new lbl cols :
  positions lbl cols = [] → positions lbl (cols ++ [lbl]) = [length cols].
Proof.
  unfold positions. intros H. rewrite positions_from_app, H. simpl.
  by rewrite decide_True.
Qed.

Lemma positions_snoc_other lbl lbl' cols :
  lbl ≠ lbl' → positions lbl' (cols ++ [lbl]) = positions lbl' cols.
Proof.
  unfold positions. intros H. rewrite positions_from_app. simpl.
  rewrite decide_False by done. by rewrite app_nil_r.
Qed.

Lemma positions_single_lt lbl cols k :
  positions lbl cols = [k] → (k < length cols)%nat.
Proof.
  intros H. assert (Hk : k ∈ positions_from 0 lbl cols).
  { unfold positions in H. rewrite H. by apply list_elem_of_singleton. }
  apply positions_from_bounds in Hk. lia.
Qed.

Lemma sma_label_not_close s : "SMA " +:+ s ≠ "Adj Close".
Proof. done. Qed.

Lemma sma2_label_not_close s : "SMA2 " +:+ s ≠ "Adj Close".
Proof. done. Qed.

Lemma sma2_label_not_sma s s' : "SMA2 " +:+ s ≠ "SMA " +:+ s'.
Proof. done. Qed.

End column_positions.

(** ** Alignment on labels *)

Section alignment.

Lemma lookup_label_elem (s : Series) x :
  NoDup s.*1 → x ∈ s → lookup_label x.1 s = Some x.2.
Proof.
  induction s as [|[d c] s IH]; simpl.
  - by intros _ ?%elem_of_nil.
  - intros [Hd Hnd]%NoDup_cons [->|Hx]%elem_of_cons; simpl.
    + by rewrite decide_True.
    + rewrite decide_False; [by apply IH|].
      intros ->. apply Hd. apply list_elem_of_fmap. by exists x.
Qed.

Lemma relabel_sublist (s s' : Series) :
  NoDup s.*1 → s' ⊆ s →
  (λ d, (d, default NaN (lookup_label d s))) <$> s'.*1 = s'.
Proof.
  intros Hnd. induction s' as [|x s' IH]; intros Hsub; simpl; [done|].
  rewrite (lookup_label_elem s x) by (done || (apply Hsub; left)).
  destruct x as [d c]. simpl. f_equal. apply IH.
  intros y Hy. apply Hsub. by right.
Qed.

Lemma reindex_drop (s : Series) m :
  NoDup s.*1 → reindex (drop m s.*1) s = Returned (drop m s).
Proof.
  intros Hnd. unfold reindex. case_decide as Heq.
  - f_equal. symmetry. apply (drop_all_or_nothing m (s.*1)); [done|].
    by rewrite length_fmap.
  - rewrite decide_True by done. f_equal.
    rewrite <- fmap_drop. apply relabel_sublist; [done|].
    intros x Hx. by apply (subseteq_drop m s).
Qed.

Lemma reindex_same (s : Series) : reindex s.*1 s = Returned s.
Proof. unfold reindex. by rewrite decide_True. Qed.

End alignment.

(** ** Columns of a frame *)

Section frame_columns.

Lemma index_length d : length (index d) = length (rows d).
Proof. unfold index. by rewrite length_fmap. Qed.

Lemma close_cells_length k d : length (close_cells k d) = length (rows d).
Proof. unfold close_cells. by rewrite length_fmap. Qed.

Lemma close_series_length k d : length (close_series k d) = length (rows d).
Proof.
  unfold close_series.
  rewrite length_zip, index_length, close_cells_length. lia.
Qed.

Lemma close_series_fmap k d :
  close_series k d = (λ r, (r.1, cell_at k r.2)) <$> rows d.
Proof.
  unfold close_series, index, close_cells.
  induction (rows d) as [|[]]; simpl; by f_equal.
Qed.

Lemma getitem_single lbl d k :
  positions lbl (columns d) = [k] →
  getitem lbl d = Returned (zip (index d) (close_cells k d)).
Proof.
  intros H. unfold getitem, close_cells, index. rewrite H. f_equal.
  induction (rows d) as [|[]]; simpl; by f_equal.
Qed.

Lemma getitem_list_single lbl d k :
  positions lbl (columns d) = [k] →
  getitem_list [lbl] d
  = Returned (mkDataFrame (index_name d) [lbl]
                ((λ r, (r.1, [cell_at k r.2])) <$> rows d)).
Proof.
  intros H. unfold getitem_list. simpl. rewrite H. simpl.
  rewrite app_nil_r. unfold positions in H.
  by rewrite (positions_from_filter 0), H.
Qed.

Lemma setitem_new lbl (a : Series) v :
  a.*1 = index v → positions lbl (columns v) = [] →
  setitem lbl a v = Returned (with_column lbl a.*2 v).
Proof.
  intros Hidx Hpos. unfold setitem. rewrite <- Hidx, reindex_same.
  simpl. by rewrite Hpos.
Qed.

Lemma with_column_index lbl vals v :
  length vals = length (rows v) → index (with_column lbl vals v) = index v.
Proof.
  unfold index, with_column. simpl. generalize (rows v). clear v.
  intros rs. revert vals. induction rs as [|r rs IH]; intros [|c vals] Hlen;
    simpl in *; try done. f_equal. apply IH. lia.
Qed.

Lemma with_column_rows_length lbl vals v :
  length vals = length (rows v) →
  length (rows (with_column lbl vals v)) = length (rows v).
Proof. intros H. unfold with_column. simpl. rewrite length_zip_with. lia. Qed.

Lemma with_column_rectangular lbl vals v :
  rectangular v → rectangular (with_column lbl vals v).
Proof.
  unfold rectangular, with_column. simpl. intros Hrect.
  rewrite length_app. simpl. revert vals.
  induction Hrect as [|r rs Hr Hrs IH]; intros [|x vals]; simpl;
    try by constructor.
  constructor; [|apply IH]. simpl. rewrite length_app. simpl. lia.
Qed.

Lemma getitem_with_column_new lbl vals v :
  rectangular v → positions lbl (columns v) = [] →
  length vals = length (rows v) →
  getitem lbl (with_column lbl vals v) = Returned (zip (index v) vals).
Proof.
  intros Hrect Hpos Hlen. unfold getitem. simpl.
  rewrite positions_snoc_new by done. f_equal.
  unfold rectangular, index in *. revert Hrect vals Hlen.
  generalize (length (columns v)). intros c.
  induction (rows v) as [|r rs IH]; intros Hrect [|x vals] Hlen;
    simpl in *; try done.
  apply Forall_cons in Hrect as [Hr Hrs]. f_equal; [|apply IH; [done|lia]].
  simpl in Hr. f_equal. unfold cell_at. rewrite lookup_app_r by lia.
  by rewrite Hr, Nat.sub_diag.
Qed.

Lemma getitem_with_column_other lbl lbl' vals v :
  lbl ≠ lbl' → rectangular v → length vals = length (rows v) →
  getitem lbl' (with_column lbl vals v) = getitem lbl' v.
Proof.
  intros Hne Hrect Hlen. unfold getitem. simpl.
  rewrite positions_snoc_other by done.
  destruct (positions lbl' (columns v)) as [|k [|]] eqn:Hpos; try done.
  apply positions_single_lt in Hpos. f_equal.
  unfold rectangular in *. revert Hrect vals Hlen.
  induction (rows v) as [|r rs IH]; intros Hrect [|x vals] Hlen;
    simpl in *; try done.
  apply Forall_cons in Hrect as [Hr Hrs]. f_equal; [|apply IH; [done|lia]].
  simpl in Hr. f_equal. unfold cell_at. rewrite lookup_app_l by lia. done.
Qed.

End frame_columns.

(** ** The rolling mean *)

Section rolling.

Lemma roll_mean_from_length values p minp i todo st :
  length (roll_mean_from values p minp i todo st) = todo.
Proof.
  revert i st. induction todo as [|todo IH]; intros i st; simpl; [done|].
  by rewrite IH.
Qed.

Lemma roll_mean_length values p minp :
  length (roll_mean values p minp) = length values.
Proof. apply roll_mean_from_length. Qed.

Lemma prep_values_length values : length (prep_values values) = length values.
Proof. unfold prep_values. by rewrite length_fmap. Qed.

Lemma rolled_cells_length p k d : length (rolled_cells p k d) = length (rows d).
Proof.
  unfold rolled_cells.
  by rewrite roll_mean_length, prep_values_length, close_cells_length.
Qed.

Lemma rolled_series_length p k d :
  length (rolled_series_of p k d) = length (rows d).
Proof.
  unfold rolled_series_of.
  rewrite length_zip, index_length, rolled_cells_length. lia.
Qed.

Lemma rolling_mean_returned (p : Z) (s : Series) :
  0 ≤ p →
  rolling_mean p s
  = Returned (zip s.*1 (roll_mean (prep_values s.*2) (Z.to_nat p) p)).
Proof. intros Hp. unfold rolling_mean. case_match; [lia|done]. Qed.

Lemma rolled_series d k p :
  0 ≤ p →
  rolling_mean p (zip (index d) (close_cells k d))
  = Returned (zip (index d) (rolled_cells p k d)).
Proof.
  intros Hp. rewrite rolling_mean_returned by done.
  assert (Hlen : length (index d) = length (close_cells k d))
    by by rewrite index_length, close_cells_length.
  by rewrite fst_zip_same, snd_zip_same by done.
Qed.

(** The count of observations never exceeds the end of the window. *)

Lemma add_mean_nobs st v : nobs (add_mean st v) ≤ nobs st + 1.
Proof. unfold add_mean. case_match; simpl; lia. Qed.

Lemma remove_mean_nobs st v : nobs (remove_mean st v) ≤ nobs st.
Proof. unfold remove_mean. case_match; simpl; lia. Qed.

Lemma foldl_add_mean_nobs l st :
  nobs (foldl add_mean st l) ≤ nobs st + Z.of_nat (length l).
Proof.
  revert st. induction l as [|v l IH]; intros st; simpl; [lia|].
  specialize (IH (add_mean st v)). pose proof (add_mean_nobs st v). lia.
Qed.

Lemma foldl_remove_mean_nobs l st : nobs (foldl remove_mean st l) ≤ nobs st.
Proof.
  revert st. induction l as [|v l IH]; intros st; simpl; [lia|].
  specialize (IH (remove_mean st v)). pose proof (remove_mean_nobs st v). lia.
Qed.

Lemma between_length {A} a b (l : list A) :
  (length (between a b l) ≤ b - a)%nat.
Proof. unfold between. rewrite length_take. lia. Qed.

Lemma window_end_le p i : (window_end p i ≤ S i)%nat.
Proof. unfold window_end. case_decide; lia. Qed.

Lemma window_end_mono p i : (window_end p i ≤ window_end p (S i))%nat.
Proof. unfold window_end. case_decide; lia. Qed.

Lemma calc_mean_few minp st : nobs st < minp → calc_mean minp st = NaN.
Proof.
  intros H. unfold calc_mean.
  by rewrite (proj2 (Z.leb_gt _ _)) by done.
Qed.

Lemma roll_mean_from_bound values p minp todo i st j :
  (i = 0%nat ∨ nobs st ≤ Z.of_nat (window_end p (Nat.pred i))) →
  (j < todo)%nat →
  ∃ st', roll_mean_from values p minp i todo st !! j = Some (calc_mean minp st') ∧
         nobs st' ≤ Z.of_nat (window_end p (i + j)).
Proof.
  revert i st j. induction todo as [|todo IH]; intros i st j Hst Hj; [lia|].
  simpl.
  set (s := window_start p i). set (e := window_end p i).
  set (st1 := if decide (i = 0%nat ∨ (window_end p (Nat.pred i) ≤ s)%nat)
              then foldl add_mean (fresh_state (default NaN (values !! s)))
                     (between s e values)
              else foldl add_mean
                     (foldl remove_mean st
                        (between (window_start p (Nat.pred i)) s values))
                     (between (window_end p (Nat.pred i)) e values)).
  assert (H1 : nobs st1 ≤ Z.of_nat e).
  { unfold st1. case_decide as Hc.
    - pose proof (foldl_add_mean_nobs (between s e values)
                    (fresh_state (default NaN (values !! s)))) as Ha.
      pose proof (between_length s e values). simpl in Ha. lia.
    - destruct Hst as [->|Hst]; [by destruct Hc; left|].
      set (e' := window_end p (Nat.pred i)) in *.
      pose proof (foldl_add_mean_nobs (between e' e values)
                    (foldl remove_mean st
                       (between (window_start p (Nat.pred i)) s values))) as Ha.
      pose proof (foldl_remove_mean_nobs
                    (between (window_start p (Nat.pred i)) s values) st) as Hr.
      pose proof (between_length e' e values).
      assert (e' ≤ e)%nat; [|lia].
      destruct i as [|i]; [by destruct Hc; left|].
      apply window_end_mono. }
  destruct j as [|j]; simpl.
  - exists st1. split; [done|]. by rewrite Nat.add_0_r.
  - destruct (IH (S i) st1 j) as (st' & Hl & Hn); [by right|lia|].
    exists st'. split; [done|]. by replace (i + S j)%nat with (S i + j)%nat by lia.
Qed.

Lemma roll_mean_short values p minp i :
  (i < length values)%nat → Z.of_nat (S i) < minp →
  roll_mean values p minp !! i = Some NaN.
Proof.
  intros Hi Hp.
  destruct (roll_mean_from_bound values p minp (length values) 0
              (fresh_state NaN) i) as (st' & Hl & Hn); [by left|done|].
  unfold roll_mean. rewrite Hl. f_equal. apply calc_mean_few.
  pose proof (window_end_le p i). simpl in Hn. lia.
Qed.

Lemma rolled_cells_short p k d i :
  (i < length (rows d))%nat → Z.of_nat (S i) < p →
  rolled_cells p k d !! i = Some NaN.
Proof.
  intros Hi Hp. unfold rolled_cells. apply roll_mean_short; [|done].
  by rewrite prep_values_length, close_cells_length.
Qed.

(** The entry of an overlay at a position of the view is the entry of the
    rolling mean of the whole data at the same date. *)
Lemma overlay_lookup n p k d j :
  let overlay := slice_from (- n) (rolled_series_of p k d) in
  let i := (length (rows d) - length overlay + j)%nat in
  (j < length overlay)%nat →
  ∃ dt v, index d !! i = Some dt ∧
          rolled_series_of p k d !! i = Some (dt, v) ∧
          overlay !! j = Some (dt, v) ∧
          (Z.of_nat (S i) < p → v = NaN).
Proof.
  intros overlay i Hj. subst i overlay.
  rewrite slice_from_length, rolled_series_length in *.
  pose proof (slice_start_le (- n) (length (rows d))) as Hm.
  set (m := slice_start (- n) (length (rows d))) in *.
  set (i := (length (rows d) - (length (rows d) - m) + j)%nat).
  assert (Hi : i = (m + j)%nat) by (unfold i; lia).
  assert (Hlt : (i < length (rows d))%nat) by lia.
  destruct (lookup_lt_is_Some_2 (index d) i) as [dt Hdt];
    [by rewrite index_length|].
  destruct (lookup_lt_is_Some_2 (rolled_cells p k d) i) as [v Hv];
    [by rewrite rolled_cells_length|].
  assert (Hr : rolled_series_of p k d !! i = Some (dt, v)).
  { unfold rolled_series_of. by rewrite lookup_zip_with, Hdt, Hv. }
  exists dt, v. split_and!; try done.
  - unfold slice_from. rewrite rolled_series_length. fold m.
    by rewrite lookup_drop, <- Hi.
  - intros Hp. rewrite (rolled_cells_short p k d i Hlt Hp) in Hv. congruence.
Qed.

End rolling.

(** ** Rows without nulls *)

Section complete_rows.

Lemma dropna_complete f :
  Forall (λ r, Forall (λ c, isna c = false) r.2) (rows (dropna f)).
Proof.
  unfold dropna. simpl. apply Forall_forall. intros r [Hr _]%list_elem_of_filter.
  apply Forall_forall. intros c Hc.
  apply Is_true_true, forallb_forall with (x := c) in Hr;
    [by apply negb_true_iff|by apply list_elem_of_In].
Qed.

Lemma dropna_rectangular f : rectangular f → rectangular (dropna f).
Proof.
  unfold rectangular, dropna. simpl. intros H.
  apply Forall_forall. intros r [_ Hr]%list_elem_of_filter.
  by eapply Forall_forall in H.
Qed.

Lemma dropna_index_NoDup f : NoDup (index f) → NoDup (index (dropna f)).
Proof.
  intros H. eapply sublist_NoDup; [done|]. unfold index, dropna. simpl.
  apply fmap_sublist, sublist_filter.
Qed.

Lemma close_cells_values quotes k :
  rectangular quotes → positions "Adj Close" (columns quotes) = [k] →
  Forall (λ c, isna c = false) (close_cells k (data_of quotes)).
Proof.
  intros Hrect Hk. unfold close_cells, data_of. simpl.
  apply Forall_fmap, Forall_forall. intros r Hr. simpl.
  pose proof (dropna_complete quotes) as Hc.
  pose proof (dropna_rectangular quotes Hrect) as Hr'.
  eapply Forall_forall in Hc; [|done]. eapply Forall_forall in Hr'; [|done].
  simpl in Hr'. apply positions_single_lt in Hk.
  unfold cell_at. destruct (r.2 !! k) as [c|] eqn:E.
  - simpl. eapply Forall_forall in Hc; [done|]. by eapply list_elem_of_lookup_2.
  - apply lookup_ge_None in E. lia.
Qed.

End complete_rows.

(** ** The view, as a value *)

Section view_value.

Lemma base_view_index n k d : index (base_view n k d) = slice_from (- n) (index d).
Proof.
  unfold index, base_view. simpl. rewrite slice_from_fmap, <- list_fmap_compose.
  done.
Qed.

Lemma base_view_rows_length n k d :
  length (rows (base_view n k d)) = length (slice_from (- n) (rows d)).
Proof. unfold base_view. simpl. by rewrite length_fmap. Qed.

Lemma base_view_rectangular n k d : rectangular (base_view n k d).
Proof.
  unfold rectangular, base_view. simpl. apply Forall_fmap, Forall_true. done.
Qed.

Lemma base_view_close n k d :
  getitem "Adj Close" (base_view n k d)
  = Returned (slice_from (- n) (close_series k d)).
Proof.
  unfold getitem, base_view, close_series. simpl. f_equal.
  rewrite slice_from_zip by by rewrite index_length, close_cells_length.
  unfold index, close_cells. rewrite !slice_from_fmap.
  induction (slice_from (- n) (rows d)) as [|[]]; simpl; by f_equal.
Qed.

Lemma overlay_cells_length n p k d :
  length (slice_from (- n) (rolled_cells p k d))
  = length (slice_from (- n) (rows d)).
Proof. by rewrite !slice_from_length, rolled_cells_length. Qed.

Lemma with_overlay_index prefix box n k d v :
  length (rows v) = length (slice_from (- n) (rows d)) →
  index (with_overlay prefix box n k d v) = index v.
Proof.
  intros H. destruct box as [p|]; unfold with_overlay; [|done].
  apply with_column_index. by rewrite overlay_cells_length.
Qed.

Lemma with_overlay_rows_length prefix box n k d v :
  length (rows v) = length (slice_from (- n) (rows d)) →
  length (rows (with_overlay prefix box n k d v)) = length (rows v).
Proof.
  intros H. destruct box as [p|]; unfold with_overlay; [|done].
  apply with_column_rows_length. by rewrite overlay_cells_length.
Qed.

Lemma with_overlay_rectangular prefix box n k d v :
  rectangular v → rectangular (with_overlay prefix box n k d v).
Proof.
  intros H. destruct box; unfold with_overlay; [|done].
  by apply with_column_rectangular.
Qed.

Lemma with_overlay_close prefix box n k d v :
  prefix +:+ pretty (default 0 box) ≠ "Adj Close" →
  rectangular v → length (rows v) = length (slice_from (- n) (rows d)) →
  getitem "Adj Close" (with_overlay prefix box n k d v) = getitem "Adj Close" v.
Proof.
  intros Hne Hrect Hlen. destruct box as [p|]; unfold with_overlay; [|done].
  apply getitem_with_column_other; [done..|].
  by rewrite overlay_cells_length.
Qed.

Lemma sma_view_facts w k d :
  let v1 := with_overlay "SMA " (sma w) (number_of_quotes w) k d
              (base_view (number_of_quotes w) k d) in
  rectangular v1 ∧
  length (rows v1) = length (slice_from (- number_of_quotes w) (rows d)) ∧
  index v1 = slice_from (- number_of_quotes w) (index d).
Proof.
  intros v1. split; [|split].
  - apply with_overlay_rectangular, base_view_rectangular.
  - unfold v1. rewrite with_overlay_rows_length; apply base_view_rows_length.
  - unfold v1. rewrite with_overlay_index; [apply base_view_index|].
    apply base_view_rows_length.
Qed.

Lemma final_view_index w k d :
  index (final_view w k d) = slice_from (- number_of_quotes w) (index d).
Proof.
  destruct (sma_view_facts w k d) as (_ & Hlen & Hidx).
  unfold final_view. by rewrite with_overlay_index.
Qed.

Lemma final_view_rows_length w k d :
  length (rows (final_view w k d))
  = length (slice_from (- number_of_quotes w) (rows d)).
Proof.
  destruct (sma_view_facts w k d) as (_ & Hlen & _).
  unfold final_view. by rewrite with_overlay_rows_length.
Qed.

Lemma final_view_close w k d :
  getitem "Adj Close" (final_view w k d)
  = Returned (slice_from (- number_of_quotes w) (close_series k d)).
Proof.
  destruct (sma_view_facts w k d) as (Hrect & Hlen & _).
  unfold final_view. rewrite with_overlay_close; [|done..].
  rewrite with_overlay_close; [apply base_view_close|done|..].
  - apply base_view_rectangular.
  - apply base_view_rows_length.
Qed.

Lemma final_view_columns w k d :
  ∃ extra, columns (final_view w k d) = "Adj Close" :: extra.
Proof.
  unfold final_view, with_overlay.
  destruct (sma w), (sma2 w); simpl; by eexists.
Qed.

Lemma sma2_not_in_sma_view w k d s :
  positions ("SMA2 " +:+ s)
    (columns (with_overlay "SMA " (sma w) (number_of_quotes w) k d
                (base_view (number_of_quotes w) k d))) = [].
Proof.
  apply positions_from_nil. destruct (sma w) as [p1|]; simpl.
  - intros [H|[H|H%elem_of_nil]%elem_of_cons]%elem_of_cons; [|by simpl in H|done].
    by apply sma2_label_not_close in H.
  - intros [H|H%elem_of_nil]%elem_of_cons; [|done].
    by apply sma2_label_not_close in H.
Qed.

Lemma final_view_overlay w k d prefix p :
  (prefix, Some p) ∈ overlays w →
  getitem (prefix +:+ pretty p) (final_view w k d)
  = Returned (slice_from (- number_of_quotes w) (rolled_series_of p k d)).
Proof.
  destruct (sma_view_facts w k d) as (Hrect & Hlen & Hidx).
  unfold rolled_series_of.
  rewrite slice_from_zip by by rewrite index_length, rolled_cells_length.
  intros [H|[H|H%elem_of_nil]%elem_of_cons]%elem_of_cons; [| |done].
  - injection H as -> Hp. unfold final_view.
    assert (Hsma :
      getitem ("SMA " +:+ pretty p)
        (with_overlay "SMA " (sma w) (number_of_quotes w) k d
           (base_view (number_of_quotes w) k d))
      = Returned (zip (slice_from (- number_of_quotes w) (index d))
                    (slice_from (- number_of_quotes w) (rolled_cells p k d)))).
    { rewrite <- Hp. unfold with_overlay.
      rewrite getitem_with_column_new, base_view_index; [done|..].
      - apply base_view_rectangular.
      - done.
      - by rewrite overlay_cells_length, base_view_rows_length. }
    destruct (sma2 w) as [p2|]; unfold with_overlay at 1; [|done].
    rewrite getitem_with_column_other; [done| |done|].
    + apply sma2_label_not_sma.
    + by rewrite overlay_cells_length.
  - injection H as -> Hp. unfold final_view. rewrite <- Hp.
    unfold with_overlay at 1.
    rewrite getitem_with_column_new, Hidx; [done|done|..].
    + apply sma2_not_in_sma_view.
    + by rewrite overlay_cells_length.
Qed.

End view_value.

(** ** The programs on the store *)

Section programs.

Lemma new_fresh (σ : Store) : σ !! fresh (dom σ) = None.
Proof. apply not_elem_of_dom, is_fresh. Qed.

Lemma load_some l f (σ : Store) : σ !! l = Some f → load l σ = Returned (f, σ).
Proof. intros H. unfold load. by rewrite H. Qed.

Lemma window_spec (σ : Store) ld d n k :
  σ !! ld = Some d → positions "Adj Close" (columns d) = [k] →
  ∃ lv σ', window ld n σ = Returned (lv, σ') ∧
           σ' !! lv = Some (base_view n k d) ∧ σ !! lv = None ∧ σ ⊆ σ'.
Proof.
  intros Hd Hk. unfold window, mbind, run_bind.
  rewrite (load_some _ _ _ Hd). unfold new at 1. simpl.
  rewrite (load_some _ (getitem_tail n d)) by apply lookup_insert_eq.
  set (σ1 := <[fresh (dom σ) := getitem_tail n d]> σ).
  unfold lift. rewrite (getitem_list_single _ _ k) by done. simpl.
  set (sel := mkDataFrame _ _ _).
  rewrite (load_some _ sel) by apply lookup_insert_eq.
  set (σ2 := <[fresh (dom σ1) := sel]> σ1). unfold new.
  assert (H1 : σ ⊆ σ1) by apply insert_subseteq, new_fresh.
  assert (H2 : σ1 ⊆ σ2) by apply insert_subseteq, new_fresh.
  eexists _, _. split; [done|]. split; [|split].
  - by rewrite lookup_insert_eq.
  - eapply lookup_weaken_None; [apply new_fresh|]. by etrans.
  - etrans; [done|]. etrans; [done|]. apply insert_subseteq, new_fresh.
Qed.

Lemma add_sma_spec prefix (σ : Store) ld lv d v p k n :
  σ !! ld = Some d → σ !! lv = Some v →
  positions "Adj Close" (columns d) = [k] → NoDup (index d) → 0 ≤ p →
  index v = slice_from (- n) (index d) →
  positions (prefix +:+ pretty p) (columns v) = [] →
  add_sma prefix ld lv p σ
  = Returned (tt, <[lv := with_column (prefix +:+ pretty p)
                            (slice_from (- n) (rolled_cells p k d)) v]> σ).
Proof.
  intros Hd Hv Hk Hnd Hp Hidx Hpos. unfold add_sma, mbind, run_bind.
  rewrite (load_some _ _ _ Hd). unfold lift.
  rewrite (getitem_single _ _ k) by done.
  rewrite rolled_series by done.
  rewrite (load_some _ _ _ Hv).
  set (rolled := zip (index d) (rolled_cells p k d)).
  assert (Hfst : rolled.*1 = index d).
  { apply fst_zip_same. by rewrite index_length, rolled_cells_length. }
  assert (Hsnd : rolled.*2 = rolled_cells p k d).
  { apply snd_zip_same. by rewrite index_length, rolled_cells_length. }
  set (m := slice_start (- n) (length (rows d))).
  assert (Hal : reindex (index v) rolled = Returned (drop m rolled)).
  { rewrite Hidx. unfold slice_from. rewrite index_length. fold m.
    rewrite <- Hfst. apply reindex_drop. by rewrite Hfst. }
  rewrite Hal. rewrite (setitem_new _ (drop m rolled)); [|..|done].
  - unfold store. do 3 f_equal. rewrite fmap_drop, Hsnd.
    unfold slice_from. by rewrite rolled_cells_length.
  - rewrite fmap_drop, Hfst, Hidx. unfold slice_from.
    by rewrite index_length.
Qed.

Lemma overlay_step prefix box (σ σ1 : Store) ld lv d v k n :
  σ !! ld = Some d → σ !! lv = None → σ ⊆ σ1 → σ1 !! lv = Some v →
  positions "Adj Close" (columns d) = [k] → NoDup (index d) →
  (∀ p, box = Some p → 0 ≤ p) →
  index v = slice_from (- n) (index d) →
  (∀ p, box = Some p → positions (prefix +:+ pretty p) (columns v) = []) →
  ∃ σ2, when_ticked box (add_sma prefix ld lv) σ1 = Returned (tt, σ2) ∧
        σ2 !! lv = Some (with_overlay prefix box n k d v) ∧ σ ⊆ σ2.
Proof.
  intros Hd Hnew Hsub Hv Hk Hnd Hp Hidx Hpos.
  destruct box as [p|]; simpl.
  - erewrite add_sma_spec; eauto.
    + eexists. split; [done|]. split; [by rewrite lookup_insert_eq|].
      by apply insert_subseteq_r.
    + eapply lookup_weaken; eauto.
  - exists σ1. done.
Qed.

Lemma build_view_spec (σ : Store) ld d w k :
  σ !! ld = Some d → positions "Adj Close" (columns d) = [k] →
  NoDup (index d) → periods_at_least 0 w →
  ∃ lv σ', build_view ld w σ = Returned (lv, σ') ∧
           σ' !! lv = Some (final_view w k d) ∧ σ !! lv = None ∧ σ ⊆ σ'.
Proof.
  intros Hd Hk Hnd Hw.
  destruct (window_spec σ ld d (number_of_quotes w) k Hd Hk)
    as (lv & σ1 & Hrun & Hv & Hnew & Hsub).
  unfold build_view, mbind, run_bind. rewrite Hrun.
  set (n := number_of_quotes w) in *.
  destruct (overlay_step "SMA " (sma w) σ σ1 ld lv d (base_view n k d) k n)
    as (σ2 & Hrun2 & Hv2 & Hsub2); try done.
  { intros p Hp. apply Hw. by left. }
  { apply base_view_index. }
  rewrite Hrun2.
  destruct (overlay_step "SMA2 " (sma2 w) σ σ2 ld lv d
              (with_overlay "SMA " (sma w) n k d (base_view n k d)) k n)
    as (σ3 & Hrun3 & Hv3 & Hsub3); try done.
  { intros p Hp. apply Hw. by right. }
  { rewrite with_overlay_index; [apply base_view_index|].
    apply base_view_rows_length. }
  { intros p _. apply positions_from_nil.
    destruct (sma w) as [p1|]; simpl.
    - intros [H|[H|H%elem_of_nil]%elem_of_cons]%elem_of_cons; [|by simpl in H|done].
      by apply sma2_label_not_close in H.
    - intros [H|H%elem_of_nil]%elem_of_cons; [|done].
      by apply sma2_label_not_close in H. }
  rewrite Hrun3. by exists lv, σ3.
Qed.

Lemma run_main_spec download asset quotes w k :
  load_quotes download asset = Returned quotes →
  positions "Adj Close" (columns quotes) = [k] →
  NoDup (index quotes) → periods_at_least 0 w →
  run_main download asset w
  = Returned (data_of quotes, final_view w k (data_of quotes)).
Proof.
  intros Hq Hk Hnd Hw. unfold run_main, main_quotes, mbind, run_bind.
  rewrite Hq. simpl. unfold set_index_name, mbind, run_bind.
  rewrite (load_some _ quotes) by apply lookup_insert_eq.
  set (σ1 := <[fresh (dom ∅) := quotes]> ∅ : Store).
  rewrite (load_some _ (dropna quotes)) by apply lookup_insert_eq.
  unfold store. simpl. fold (data_of quotes).
  set (ld := fresh (dom σ1)). rewrite insert_insert_eq.
  destruct (build_view_spec (<[ld := data_of quotes]> σ1) ld (data_of quotes) w k)
    as (lv & σ2 & Hrun & Hv & Hnew & Hsub);
    [apply lookup_insert_eq|done|by apply dropna_index_NoDup|done|].
  change (build_view ld w _) with (build_view ld w (<[ld:=data_of quotes]> σ1)).
  rewrite Hrun. simpl.
  rewrite (lookup_weaken _ _ ld (data_of quotes) (lookup_insert_eq _ _ _) Hsub).
  by rewrite Hv.
Qed.

Lemma run_main_view download asset quotes w :
  load_quotes download asset = Returned quotes → quote_frame quotes →
  periods_at_least 0 w →
  ∃ k,
    run_main download asset w
    = Returned (data_of quotes, final_view w k (data_of quotes)) ∧
    positions "Adj Close" (columns quotes) = [k] ∧
    Forall (λ c, isna c = false) (close_cells k (data_of quotes)).
Proof.
  intros Hq [Hrect Hadj Hnd] Hw.
  destruct (positions "Adj Close" (columns quotes)) as [|k [|]] eqn:Hk;
    try done.
  exists k. split_and!; [by apply run_main_spec|done|].
  by apply close_cells_values.
Qed.

Lemma periods_at_least_weaken lo lo' w : lo' ≤ lo → periods_at_least lo w → periods_at_least lo' w.
Proof. intros Hle H p Hp. specialize (H p Hp). lia. Qed.

Lemma overlays_period lo w prefix p :
  periods_at_least lo w → (prefix, Some p) ∈ overlays w → lo ≤ p.
Proof.
  intros Hw [H|[H|H%elem_of_nil]%elem_of_cons]%elem_of_cons; [| |done];
    injection H as _ H; apply Hw; auto.
Qed.

End programs.

(** ** Facts about the sample data *)

Section samples.

Lemma sample_quotes_loaded :
  load_quotes sample_download "MMM" = Returned sample_quotes.
Proof. reflexivity. Qed.

Lemma sample_quotes_frame : quote_frame sample_quotes.
Proof.
  split; [unfold rectangular; compute_done|reflexivity|compute_done].
Qed.

Lemma sample_periods lo : lo ≤ 5 → periods_at_least lo sample_widgets.
Proof. intros H p [[= <-]|[= <-]]; lia. Qed.

Lemma sample_ranges :
  specified_ranges (length (rows (dropna sample_quotes))) sample_widgets.
Proof.
  split; [|split].
  - compute_done.
  - intros p [= <-]. lia.
  - intros p [= <-]. lia.
Qed.

Lemma ranges_periods n w : specified_ranges n w → periods_at_least 5 w.
Proof.
  intros (_ & H1 & H2) p [Hp|Hp]; [apply H1 in Hp|apply H2 in Hp];
    by destruct Hp.
Qed.

End samples.

(** ** The properties of the pipeline *)






(** C3, as the code has it.  [load_quotes] raises exactly when the download
    raises, and then the same exception; it has no error of its own.  When
    the download returns, so does [load_quotes], with the rows it was given. *)
Theorem load_quotes_fails_only_as_the_download_fails download symbol :
  (∀ e, load_quotes download symbol = Raised e ↔ download symbol = Raised e) ∧
  (∀ raw, download symbol = Returned raw →
     ∃ f, load_quotes download symbol = Returned f ∧
          columns f = get_level_values_0 (d_columns raw) ∧
          rows f = d_rows raw).
Proof.
  unfold load_quotes. split.
  - intros e. destruct (download symbol) as [raw|e']; simpl.
    + split; discriminate.
    + split; intros [= ->]; done.
  - intros raw ->. simpl. eexists. split; [done|]. split; [|done].
    simpl. by destruct (d_columns raw).
Qed.

Lemma load_quotes_fails_only_as_the_download_fails_example :
  ∃ f, load_quotes (yf_download empty_market) "ZZZZ-INVALID" = Returned f ∧
       columns f = sample_fields ∧ rows f = [].
Proof.
  destruct (load_quotes_fails_only_as_the_download_fails
              (yf_download empty_market) "ZZZZ-INVALID") as [_ H].
  exact (H (no_data "ZZZZ-INVALID") eq_refl).
Defined.

(** C3, as the specification words it, fails: a provider that answers an
    unknown symbol with an empty frame makes [load_quotes] return that frame. *)
Lemma unknown_symbol_is_answered_with_an_empty_frame :
  empty_market "ZZZZ-INVALID" = None ∧
  ∃ f, load_quotes (yf_download empty_market) "ZZZZ-INVALID" = Returned f ∧
       rows f = [] ∧
       load_quotes (yf_download empty_market) "ZZZZ-INVALID"
       ≠ Raised (Other "NotFoundError").
Proof. split; [done|]. eexists. split; [reflexivity|]. split; [done|discriminate]. Qed.

(** C4, as the code has it.  The first table of the page is keyed by its
    "Symbol" column: the keys are the values of that column in table order,
    taken as they are, and the other columns stay.  Without such a column the
    call raises [KeyError]; without any table, [ValueError]. *)
Theorem components_are_keyed_by_the_symbol_column t rest :
  (∀ k, positions "Symbol" (header t) = [k] →
     ∃ c, load_sp500_components (Returned (t :: rest)) = Returned c ∧
          key_name c = "Symbol" ∧
          keys c = (λ r, default "" (r !! k)) <$> body t ∧
          fields c = delete k (header t) ∧
          (entries c).*2 = delete k <$> body t) ∧
  (positions "Symbol" (header t) = [] →
     load_sp500_components (Returned (t :: rest)) = Raised KeyError) ∧
  load_sp500_components (Returned []) = Raised ValueError.
Proof.
  split_and!; [|by intros H; simpl; unfold set_index; rewrite H|done].
  intros k Hk. simpl. unfold set_index. rewrite Hk.
  eexists. split; [done|]. unfold keys. simpl.
  rewrite <- !list_fmap_compose. done.
Qed.

Lemma components_are_keyed_by_the_symbol_column_example :
  ∃ c, load_sp500_components (Returned [sample_table]) = Returned c ∧
       key_name c = "Symbol" ∧
       keys c = ["MMM"; "AOS"] ∧
       fields c = ["Security"; "GICS Sector"] ∧
       (entries c).*2 = [["3M"; "Industrials"]; ["A. O. Smith"; "Industrials"]].
Proof.
  destruct (components_are_keyed_by_the_symbol_column sample_table [])
    as [H _].
  exact (H 0%nat eq_refl).
Defined.

(** C4, as the specification words it, fails: a table with the same symbol
    twice is accepted and keeps both rows, and a table without the column
    fails with [KeyError], not with a parse error. *)
Lemma duplicate_symbols_are_accepted :
  (∃ c, load_sp500_components (Returned [duplicated_table]) = Returned c ∧
        keys c = ["MMM"; "AOS"; "MMM"] ∧ ¬ NoDup (keys c)) ∧
  load_sp500_components (Returned [unkeyed_table]) = Raised KeyError ∧
  load_sp500_components (Returned [unkeyed_table]) ≠ Raised (Other "ParseError").
Proof.
  split; [|done]. eexists. split; [reflexivity|]. split; [done|].
  simpl. intros H. apply NoDup_cons in H as [H _]. apply H.
  right. left.
Qed.




(** C6.  A windowed date at position [i] of the full series with
    [i + 1 < p], that is with fewer than [p] values up to and including it,
    has a null in the overlay column: the run returns, and the cell is NaN,
    neither a number nor absent. *)
Theorem short_history_carries_no_overlay_value download asset quotes w prefix p :
  load_quotes download asset = Returned quotes → quote_frame quotes →
  periods_at_least 0 w → (prefix, Some p) ∈ overlays w →
  ∃ data view overlay,
    run_main download asset w = Returned (data, view) ∧
    getitem (prefix +:+ pretty p) view = Returned overlay ∧
    overlay.*1 = index view ∧
    ∀ j, (j < length overlay)%nat →
      let i := (length (rows data) - length overlay + j)%nat in
      (S i < Z.to_nat p)%nat →
      ∃ dt, index data !! i = Some dt ∧ overlay !! j = Some (dt, NaN).
Proof.
  intros Hq Hqf Hw Hov.
  destruct (run_main_view download asset quotes w Hq Hqf Hw)
    as (k & Hrun & Hk & Hqs).
  set (data := data_of quotes) in *.
  exists data, (final_view w k data),
    (slice_from (- number_of_quotes w) (rolled_series_of p k data)).
  split_and!; try done.
  - by apply final_view_overlay.
  - rewrite final_view_index. unfold rolled_series_of.
    rewrite <- slice_from_fmap, fst_zip_same; [done|].
    by rewrite index_length, rolled_cells_length.
  - intros j Hj i Hi. unfold i in *.
    destruct (overlay_lookup (number_of_quotes w) p k data j Hj)
      as (dt & v & Hdt & _ & Hlook & Hshort).
    exists dt. split; [done|]. rewrite Hlook, Hshort; [done|].
    pose proof (overlays_period 0 w prefix p Hw Hov). lia.
Qed.

Lemma short_history_carries_no_overlay_value_example :
  load_quotes sample_download "MMM" = Returned sample_quotes ∧
  quote_frame sample_quotes ∧
  periods_at_least 0 sample_widgets ∧
  ("SMA2 ", Some 35) ∈ overlays sample_widgets ∧
  ∃ data view overlay,
    run_main sample_download "MMM" sample_widgets = Returned (data, view) ∧
    getitem ("SMA2 " +:+ pretty 35) view = Returned overlay ∧
    overlay.*1 = index view ∧
    ∀ j, (j < length overlay)%nat →
      let i := (length (rows data) - length overlay + j)%nat in
      (S i < Z.to_nat 35)%nat →
      ∃ dt, index data !! i = Some dt ∧ overlay !! j = Some (dt, NaN).
Proof.
  assert (H1 := sample_quotes_loaded).
  assert (H2 := sample_quotes_frame).
  assert (H3 : periods_at_least 0 sample_widgets) by (apply sample_periods; lia).
  assert (H4 : ("SMA2 ", Some 35) ∈ overlays sample_widgets) by (right; left).
  split_and!; [done..|].
  exact (short_history_carries_no_overlay_value sample_download "MMM"
           sample_quotes sample_widgets "SMA2 " 35 H1 H2 H3 H4).
Defined.

(** C7.  The frame [data], from which the window and the overlays are taken,
    holds exactly the rows of the loaded quotes that have no null, in their
    order: no row of [data] has a null field, and the view is cut from it. *)
Theorem data_has_no_null_field download asset quotes w :
  load_quotes download asset = Returned quotes → quote_frame quotes →
  periods_at_least 0 w →
  ∃ data view,
    run_main download asset w = Returned (data, view) ∧
    rows data = filter (λ r, Forall (λ c, isna c = false) r.2) (rows quotes) ∧
    Forall (λ r, Forall (λ c, isna c = false) r.2) (rows data) ∧
    index view = slice_from (- number_of_quotes w) (index data).
Proof.
  intros Hq Hqf Hw.
  destruct (run_main_view download asset quotes w Hq Hqf Hw)
    as (k & Hrun & Hk & Hqs).
  set (data := data_of quotes) in *.
  exists data, (final_view w k data).
  assert (Hrows : rows data
                  = filter (λ r, Forall (λ c, isna c = false) r.2) (rows quotes)).
  { unfold data, data_of, dropna. simpl. apply list_filter_iff. intros r.
    rewrite Forall_forall. split.
    - intros Hr c Hc.
      apply Is_true_true, forallb_forall with (x := c) in Hr;
        [by apply negb_true_iff|by apply list_elem_of_In].
    - intros Hr. apply Is_true_true, forallb_forall. intros c Hc.
      apply list_elem_of_In, Hr in Hc. by apply negb_true_iff. }
  split_and!; try done.
  - rewrite Hrows. apply Forall_forall. by intros r [? _]%list_elem_of_filter.
  - apply final_view_index.
Qed.

Lemma data_has_no_null_field_example :
  load_quotes sample_download "MMM" = Returned sample_quotes ∧
  quote_frame sample_quotes ∧
  periods_at_least 0 sample_widgets ∧
  ∃ data view,
    run_main sample_download "MMM" sample_widgets = Returned (data, view) ∧
    rows data
    = filter (λ r, Forall (λ c, isna c = false) r.2) (rows sample_quotes) ∧
    Forall (λ r, Forall (λ c, isna c = false) r.2) (rows data) ∧
    index view = slice_from (- number_of_quotes sample_widgets) (index data).
Proof.
  assert (H1 := sample_quotes_loaded).
  assert (H2 := sample_quotes_frame).
  assert (H3 : periods_at_least 0 sample_widgets) by (apply sample_periods; lia).
  split_and!; [done..|].
  exact (data_has_no_null_field sample_download "MMM" sample_quotes
           sample_widgets H1 H2 H3).
Defined.

(** C8.  For a window size in the range the specification gives, from 30 to
    [min(2000, len(data))], the "Adj Close" column
    of the view is the last [number_of_quotes] entries of the "Adj Close"
    column of [data], dates and values, in the same order; "Adj Close" is the
    first column of the view, and its only one when no overlay is ticked. *)
Theorem view_is_the_suffix_of_adjusted_closes download asset quotes w :
  load_quotes download asset = Returned quotes → quote_frame quotes →
  specified_ranges (length (rows (dropna quotes))) w →
  ∃ data view close before shown extra,
    run_main download asset w = Returned (data, view) ∧
    rows data = rows (dropna quotes) ∧
    getitem "Adj Close" data = Returned close ∧
    close = before ++ shown ∧
    Z.of_nat (length shown) = number_of_quotes w ∧
    getitem "Adj Close" view = Returned shown ∧
    index view = shown.*1 ∧
    columns view = "Adj Close" :: extra ∧
    (sma w = None → sma2 w = None →
     extra = [] ∧ rows view = (λ x, (x.1, [x.2])) <$> shown).
Proof.
  intros Hq Hqf Hs.
  assert (Hw : periods_at_least 0 w)
    by (apply (periods_at_least_weaken 5); [lia|by eapply ranges_periods]).
  destruct Hs as ([Hlo Hhi] & _).
  destruct (run_main_view download asset quotes w Hq Hqf Hw)
    as (k & Hrun & Hk & Hqs).
  set (data := data_of quotes) in *.
  set (n := number_of_quotes w) in *.
  set (m := slice_start (- n) (length (close_series k data))).
  destruct (final_view_columns w k data) as [extra Hextra].
  exists data, (final_view w k data), (close_series k data),
    (take m (close_series k data)), (slice_from (- n) (close_series k data)),
    extra.
  split_and!; try done.
  - by apply getitem_single.
  - unfold slice_from. fold m. by rewrite take_drop.
  - rewrite slice_tail_length, close_series_length by lia.
    change (length (rows data)) with (length (rows (dropna quotes))). lia.
  - apply final_view_close.
  - rewrite final_view_index. unfold close_series.
    rewrite <- slice_from_fmap, fst_zip_same; [done|].
    by rewrite index_length, close_cells_length.
  - intros H1 H2. unfold final_view in *. rewrite H1, H2 in *. simpl in *.
    split; [congruence|].
    rewrite close_series_fmap, slice_from_fmap, <- list_fmap_compose. done.
Qed.

Lemma view_is_the_suffix_of_adjusted_closes_example :
  load_quotes sample_download "MMM" = Returned sample_quotes ∧
  quote_frame sample_quotes ∧
  specified_ranges (length (rows (dropna sample_quotes))) sample_widgets ∧
  ∃ data view close before shown extra,
    run_main sample_download "MMM" sample_widgets = Returned (data, view) ∧
    rows data = rows (dropna sample_quotes) ∧
    getitem "Adj Close" data = Returned close ∧
    close = before ++ shown ∧
    Z.of_nat (length shown) = number_of_quotes sample_widgets ∧
    getitem "Adj Close" view = Returned shown ∧
    index view = shown.*1 ∧
    columns view = "Adj Close" :: extra ∧
    (sma sample_widgets = None → sma2 sample_widgets = None →
     extra = [] ∧ rows view = (λ x, (x.1, [x.2])) <$> shown).
Proof.
  assert (H1 := sample_quotes_loaded).
  assert (H2 := sample_quotes_frame).
  assert (H3 := sample_ranges).
  split_and!; [done..|].
  exact (view_is_the_suffix_of_adjusted_closes sample_download "MMM"
           sample_quotes sample_widgets H1 H2 H3).
Defined.

(** C9, as the code has it.  [load_quotes] enforces no schema: it hands back
    flat column labels, the level 0 of the labels of the download (the
    labels themselves when they are flat already), and leaves the rows as
    they are.  The columns of the result are the six field names of a quote
    exactly when the labels of the download are. *)
Theorem load_quotes_flattens_the_columns download symbol raw :
  download symbol = Returned raw →
  ∃ f, load_quotes download symbol = Returned f ∧
       columns f = get_level_values_0 (d_columns raw) ∧
       length (columns f) = width (d_columns raw) ∧
       rows f = d_rows raw ∧
       (columns f ≡ₚ quote_fields
        ↔ get_level_values_0 (d_columns raw) ≡ₚ quote_fields) ∧
       (columns f ≡ₚ quote_fields →
        length (positions "Adj Close" (columns f)) = 1%nat).
Proof.
  intros Hraw. unfold load_quotes. rewrite Hraw. simpl.
  eexists. split; [done|]. simpl.
  assert (Hcols : match d_columns raw with
                  | FlatIndex labels => labels
                  | MultiIndex _ => get_level_values_0 (d_columns raw)
                  end = get_level_values_0 (d_columns raw))
    by by destruct (d_columns raw).
  rewrite Hcols. split_and!; try done.
  - destruct (d_columns raw); simpl; [done|]. by rewrite length_fmap.
  - intros Hfields. rewrite <- (length_replicate _ "Adj Close").
    unfold positions. rewrite <- positions_from_filter. by rewrite Hfields.
Qed.

Lemma load_quotes_flattens_the_columns_example :
  sample_download "MMM" = Returned (mkDownload (Some "Date")
    (MultiIndex ((λ f, (f, ["MMM"])) <$> sample_fields)) (sample_rows 40)) ∧
  ∃ f, load_quotes sample_download "MMM" = Returned f ∧
       columns f = sample_fields ∧
       length (columns f) = 6%nat ∧
       rows f = sample_rows 40 ∧
       (columns f ≡ₚ quote_fields ↔ sample_fields ≡ₚ quote_fields) ∧
       (columns f ≡ₚ quote_fields →
        length (positions "Adj Close" (columns f)) = 1%nat).
Proof.
  assert (H1 : sample_download "MMM" = Returned (mkDownload (Some "Date")
    (MultiIndex ((λ f, (f, ["MMM"])) <$> sample_fields)) (sample_rows 40)))
    by reflexivity.
  split; [done|].
  exact (load_quotes_flattens_the_columns sample_download "MMM" _ H1).
Defined.

(** C9, as the specification words it, fails: a download with the flat
    columns "Close" and "Volume" is handed back with these two columns, not
    with the six fields of a quote. *)
Lemma another_schema_is_handed_back :
  ∃ f, load_quotes unadjusted_download "MMM" = Returned f ∧
       columns f = ["Close"; "Volume"] ∧
       ¬ columns f ≡ₚ quote_fields ∧
       "Adj Close" ∉ columns f.
Proof.
  eexists. split; [reflexivity|]. split; [done|]. split.
  - intros H%Permutation_length. discriminate H.
  - compute_done.
Qed.

(** C10.  Building the view on any store leaves [data], and every frame the
    store held, as it was: the view is a new object, and the overlay columns
    are written to it alone.  The view with overlays has the index and the
    "Adj Close" column of the view built without them. *)
Theorem building_the_view_leaves_data_unchanged (σ : Store) data d w :
  σ !! data = Some d →
  length (positions "Adj Close" (columns d)) = 1%nat → NoDup (index d) →
  periods_at_least 0 w →
  ∃ data_view σ' v plain σ0 v0,
    build_view data w σ = Returned (data_view, σ') ∧
    σ' !! data_view = Some v ∧
    σ !! data_view = None ∧ data_view ≠ data ∧
    σ' !! data = Some d ∧
    (∀ l f, σ !! l = Some f → σ' !! l = Some f) ∧
    build_view data (mkWidgets (number_of_quotes w) None None) σ
    = Returned (plain, σ0) ∧
    σ0 !! plain = Some v0 ∧
    index v = index v0 ∧
    getitem "Adj Close" v = getitem "Adj Close" v0 ∧
    returns (getitem "Adj Close" v0) = true.
Proof.
  intros Hd Hadj Hnd Hw.
  destruct (positions "Adj Close" (columns d)) as [|k [|]] eqn:Hk; try done.
  destruct (build_view_spec σ data d w k Hd Hk Hnd Hw)
    as (lv & σ' & Hrun & Hv & Hnew & Hsub).
  destruct (build_view_spec σ data d (mkWidgets (number_of_quotes w) None None)
              k Hd Hk Hnd)
    as (lv0 & σ0 & Hrun0 & Hv0 & _ & _).
  { intros p [H|H]; discriminate H. }
  eexists lv, σ', _, lv0, σ0, _.
  split_and!; try done.
  - intros ->. by rewrite Hd in Hnew.
  - by eapply lookup_weaken.
  - intros l f Hl. by eapply lookup_weaken.
  - by rewrite !final_view_index.
  - by rewrite !final_view_close.
Qed.

Lemma building_the_view_leaves_data_unchanged_example :
  sample_store !! 7%positive = Some sample_quotes ∧
  length (positions "Adj Close" (columns sample_quotes)) = 1%nat ∧
  NoDup (index sample_quotes) ∧
  periods_at_least 0 sample_widgets ∧
  ∃ data_view σ' v plain σ0 v0,
    build_view 7%positive sample_widgets sample_store
    = Returned (data_view, σ') ∧
    σ' !! data_view = Some v ∧
    sample_store !! data_view = None ∧ data_view ≠ 7%positive ∧
    σ' !! 7%positive = Some sample_quotes ∧
    (∀ l f, sample_store !! l = Some f → σ' !! l = Some f) ∧
    build_view 7%positive
      (mkWidgets (number_of_quotes sample_widgets) None None) sample_store
    = Returned (plain, σ0) ∧
    σ0 !! plain = Some v0 ∧
    index v = index v0 ∧
    getitem "Adj Close" v = getitem "Adj Close" v0 ∧
    returns (getitem "Adj Close" v0) = true.
Proof.
  assert (H1 : sample_store !! 7%positive = Some sample_quotes) by reflexivity.
  assert (H2 : length (positions "Adj Close" (columns sample_quotes)) = 1%nat)
    by reflexivity.
  assert (H3 : NoDup (index sample_quotes)) by compute_done.
  assert (H4 : periods_at_least 0 sample_widgets) by (apply sample_periods; lia).
  split_and!; [done..|].
  exact (building_the_view_leaves_data_unchanged sample_store 7%positive
           sample_quotes sample_widgets H1 H2 H3 H4).
Defined.


(** ** The order of strings *)

Section string_order.

Lemma str_le_total_rel : Total str_le.
Proof. intros a b. apply String.leb_total. Qed.

Lemma str_le_antisym : AntiSymm (=) str_le.
Proof. intros a b. apply String.leb_antisym. Qed.

Lemma ascii_compare_trans a b c :
  Ascii.compare a b ≠ Gt → Ascii.compare b c ≠ Gt →
  match Ascii.compare a b, Ascii.compare b c with
  | Eq, Eq => Ascii.compare a c = Eq
  | _, _ => Ascii.compare a c = Lt
  end.
Proof.
  unfold Ascii.compare.
  destruct (N.compare_spec (Ascii.N_of_ascii a) (Ascii.N_of_ascii b)) as [E1|L1|G1];
    destruct (N.compare_spec (Ascii.N_of_ascii b) (Ascii.N_of_ascii c)) as [E2|L2|G2];
    intros H1 H2; try done.
  - apply N.compare_eq_iff. congruence.
  - apply N.compare_lt_iff. lia.
  - apply N.compare_lt_iff. lia.
  - apply N.compare_lt_iff. lia.
Qed.

Lemma str_le_trans : Transitive str_le.
Proof.
  unfold str_le, String.leb. intros x.
  induction x as [|a x IH]; intros [|b y] [|c z]; simpl; try done.
  intros H1 H2.
  assert (Hab : Ascii.compare a b ≠ Gt).
  { intros E. by rewrite E in H1. }
  assert (Hbc : Ascii.compare b c ≠ Gt).
  { intros E. by rewrite E in H2. }
  pose proof (ascii_compare_trans a b c Hab Hbc) as Hac.
  destruct (Ascii.compare a b) eqn:E1; try done;
    destruct (Ascii.compare b c) eqn:E2; try done;
    rewrite Hac; try done.
  by apply (IH y z).
Qed.

End string_order.

(** ** Rows and labels of the components *)

Section components_facts.

Lemma positions_from_S k lbl cols :
  positions_from (S k) lbl cols = S <$> positions_from k lbl cols.
Proof.
  revert k. induction cols as [|c cols IH]; intros k; simpl; [done|].
  rewrite IH. by case_decide.
Qed.

Lemma positions_from_lookup k lbl cols i :
  i ∈ positions_from k lbl cols → cols !! (i - k)%nat = Some lbl.
Proof.
  revert k. induction cols as [|c cols IH]; intros k; simpl.
  - by intros ?%elem_of_nil.
  - case_decide as Hc.
    + intros [->|Hi]%elem_of_cons.
      * rewrite Nat.sub_diag. simpl. by f_equal.
      * pose proof (positions_from_bounds _ _ _ _ Hi).
        apply IH in Hi. replace (i - k)%nat with (S (i - S k)) by lia. done.
    + intros Hi. pose proof (positions_from_bounds _ _ _ _ Hi).
      apply IH in Hi. replace (i - k)%nat with (S (i - S k)) by lia. done.
Qed.

Lemma positions_single_lookup lbl cols k :
  positions lbl cols = [k] → cols !! k = Some lbl.
Proof.
  intros H. rewrite <- (Nat.sub_0_r k). apply positions_from_lookup.
  unfold positions in H. rewrite H. by apply list_elem_of_singleton.
Qed.

(** Positions after a column of another label has left. *)
Lemma positions_from_delete o lbl cols k s :
  cols !! k = Some s → s ≠ lbl →
  positions_from o lbl (delete k cols)
  = (λ j, if decide (j < o + k)%nat then j else Nat.pred j)
    <$> positions_from o lbl cols.
Proof.
  revert o k. induction cols as [|c cols IH]; intros o k Hk Hne; [done|].
  destruct k as [|k]; simpl in *.
  - injection Hk as ->. rewrite decide_False by done.
    rewrite positions_from_S, <- list_fmap_compose.
    rewrite <- (list_fmap_id (positions_from o lbl cols)) at 1.
    apply list_fmap_ext. intros i j Hj. simpl.
    apply list_elem_of_lookup_2, positions_from_bounds in Hj.
    rewrite decide_False by lia. done.
  - rewrite (IH (S o) k Hk Hne).
    replace (S o + k)%nat with (o + S k)%nat by lia.
    case_decide; [|done]. simpl. by rewrite decide_True by lia.
Qed.

Lemma positions_delete_single lbl cols k j s :
  cols !! k = Some s → s ≠ lbl → positions lbl cols = [j] →
  positions lbl (delete k cols) = [if decide (j < k)%nat then j else Nat.pred j].
Proof.
  intros Hk Hne Hj. unfold positions in *.
  by rewrite (positions_from_delete 0 lbl cols k s), Hj.
Qed.

Lemma text_at_delete k j (r : list string) :
  j ≠ k →
  text_at (if decide (j < k)%nat then j else Nat.pred j) (delete k r)
  = text_at j r.
Proof.
  intros Hne. unfold text_at. case_decide.
  - by rewrite list_lookup_delete_lt.
  - rewrite list_lookup_delete_ge by lia. by replace (S (Nat.pred j)) with j by lia.
Qed.

Lemma filter_key_nil (s : string) (es : list (string * list string)) :
  filter (λ e, e.1 = s) es = [] ↔ s ∉ es.*1.
Proof.
  induction es as [|e es IH]; simpl.
  - split; [intros _; apply not_elem_of_nil|done].
  - rewrite filter_cons, not_elem_of_cons. case_decide as He.
    + split; [done|]. intros [Hne _]. by destruct Hne.
    + rewrite IH. split; [by intros ?; split|by intros [_ ?]].
Qed.

Lemma filter_key_unique (s : string) (es : list (string * list string)) e :
  NoDup es.*1 → e ∈ es → e.1 = s → filter (λ e, e.1 = s) es = [e].
Proof.
  induction es as [|e' es IH]; simpl.
  - by intros _ ?%elem_of_nil.
  - intros [Hnin Hnd]%NoDup_cons [->|Hin]%elem_of_cons Hs; rewrite filter_cons.
    + rewrite decide_True by done. f_equal.
      apply filter_key_nil. by rewrite <- Hs.
    + rewrite decide_False; [by apply IH|].
      intros He'. apply Hnin. rewrite He', <- Hs.
      apply list_elem_of_fmap. by exists e.
Qed.

Lemma loc_getitem_returns s c :
  returns (loc_getitem s c) = true ↔ s ∈ keys c.
Proof.
  unfold loc_getitem, keys.
  destruct (filter (λ e, e.1 = s) (entries c)) as [|e [|e' es]] eqn:E; simpl.
  - apply filter_key_nil in E. split; [done|]. intros ?. by destruct E.
  - split; [|done]. intros _.
    destruct (decide (s ∈ (entries c).*1)) as [|Hn]; [done|].
    apply filter_key_nil in Hn. by rewrite Hn in E.
  - split; [|done]. intros _.
    destruct (decide (s ∈ (entries c).*1)) as [|Hn]; [done|].
    apply filter_key_nil in Hn. by rewrite Hn in E.
Qed.

Lemma loc_getitem_missing s c : s ∉ keys c → loc_getitem s c = Raised KeyError.
Proof.
  intros H. unfold loc_getitem. apply filter_key_nil in H. by rewrite H.
Qed.

Lemma getattr_returns name labels company :
  returns (getattr name labels company) = true ↔ name ∈ labels.
Proof.
  unfold getattr.
  destruct (positions name labels) as [|k [|k' ks]] eqn:E.
  - apply positions_from_nil in E. simpl. split; [done|]. intros ?. by destruct E.
  - assert (name ∈ labels).
    { destruct (decide (name ∈ labels)) as [|Hn]; [done|].
      apply (positions_from_nil 0) in Hn. unfold positions in E.
      by rewrite Hn in E. }
    by destruct company.
  - assert (name ∈ labels).
    { destruct (decide (name ∈ labels)) as [|Hn]; [done|].
      apply (positions_from_nil 0) in Hn. unfold positions in E.
      by rewrite Hn in E. }
    by destruct company.
Qed.

Lemma getattr_missing name labels company :
  name ∉ labels → getattr name labels company = Raised (Other "AttributeError").
Proof.
  intros H. apply (positions_from_nil 0) in H. unfold getattr, positions.
  by rewrite H.
Qed.

End components_facts.

(** ** The components as [main] uses them *)

Lemma set_index_entries t rest k :
  positions "Symbol" (header t) = [k] →
  load_sp500_components (Returned (t :: rest))
  = Returned (mkComponents "Symbol" (delete k (header t))
                ((λ r, (text_at k r, delete k r)) <$> body t)).
Proof. intros Hk. simpl. unfold set_index. by rewrite Hk. Qed.

Lemma loc_after_set_index t k i row :
  NoDup (text_at k <$> body t) →
  body t !! i = Some row →
  loc_getitem (text_at k row)
    (mkComponents "Symbol" (delete k (header t))
       ((λ r, (text_at k r, delete k r)) <$> body t))
  = Returned (OneRow (delete k row)).
Proof.
  intros Hnd Hrow. unfold loc_getitem. simpl.
  rewrite (filter_key_unique _ _ (text_at k row, delete k row)); [done|..|done].
  - by rewrite <- list_fmap_compose.
  - apply list_elem_of_fmap. exists row. split; [done|].
    by eapply list_elem_of_lookup_2.
Qed.

(** X1.  Keying the table and looking a symbol up again gives the row back:
    when the symbols of the table are all different, [components.loc] on the
    symbol of a row returns that row as one series, without its symbol
    cell. *)
Theorem loc_finds_the_row_of_its_symbol t rest k i row :
  positions "Symbol" (header t) = [k] →
  NoDup (text_at k <$> body t) →
  body t !! i = Some row →
  ∃ c, load_sp500_components (Returned (t :: rest)) = Returned c ∧
       loc_getitem (text_at k row) c = Returned (OneRow (delete k row)).
Proof.
  intros Hk Hnd Hrow. eexists. split; [by apply set_index_entries|].
  by eapply loc_after_set_index.
Qed.

(** X2.  For a table with one "Symbol" and one "Security" column and
    symbols all different, the label of the symbol of a row is
    "symbol - security" with the security name of that same row, and the
    title [main] shows for this asset is that security name. *)
Theorem label_is_symbol_dash_security show t rest k j i row :
  positions "Symbol" (header t) = [k] →
  positions "Security" (header t) = [j] →
  NoDup (text_at k <$> body t) →
  body t !! i = Some row →
  ∃ c, load_sp500_components (Returned (t :: rest)) = Returned c ∧
       format_symbol_label show (text_at k row) c
       = Returned (text_at k row +:+ " - " +:+ text_at j row) ∧
       company_title (text_at k row) c = Returned (Scalar (text_at j row)).
Proof.
  intros Hk Hj Hnd Hrow.
  eexists. split; [by apply set_index_entries|].
  assert (Hne : j ≠ k).
  { intros ->. apply positions_single_lookup in Hk, Hj. congruence. }
  assert (Hpos : positions "Security" (delete k (header t))
                 = [if decide (j < k)%nat then j else Nat.pred j]).
  { apply (positions_delete_single _ _ _ _ "Symbol"); [|done|done].
    by apply positions_single_lookup. }
  unfold format_symbol_label, company_title.
  rewrite (loc_after_set_index t k i row Hnd Hrow). simpl.
  unfold getattr. rewrite Hpos. simpl. by rewrite text_at_delete.
Qed.

(** X3.  [format_symbol_label] returns exactly for a symbol of the index of
    components that have a "Security" column.  A symbol that is not in the
    index raises [KeyError]; a symbol of the index without a "Security"
    column raises [AttributeError]. *)
Theorem format_symbol_label_returns_iff show symbol c :
  (returns (format_symbol_label show symbol c) = true
   ↔ symbol ∈ keys c ∧ "Security" ∈ fields c) ∧
  (symbol ∉ keys c → format_symbol_label show symbol c = Raised KeyError) ∧
  (symbol ∈ keys c → "Security" ∉ fields c →
   format_symbol_label show symbol c = Raised (Other "AttributeError")).
Proof.
  unfold format_symbol_label. split_and!.
  - destruct (loc_getitem symbol c) as [company|e] eqn:Hloc; simpl.
    + assert (Hs : symbol ∈ keys c).
      { apply loc_getitem_returns. by rewrite Hloc. }
      destruct (getattr "Security" (fields c) company) as [v|e] eqn:Hattr; simpl.
      * split; [|done]. intros _. split; [done|].
        apply (getattr_returns _ _ company). by rewrite Hattr.
      * split; [done|]. intros [_ Hf].
        apply (getattr_returns _ _ company) in Hf. by rewrite Hattr in Hf.
    + split; [done|]. intros [Hs _].
      apply loc_getitem_returns in Hs. by rewrite Hloc in Hs.
  - intros Hs. by rewrite loc_getitem_missing.
  - intros Hs Hf. apply loc_getitem_returns in Hs.
    destruct (loc_getitem symbol c) as [company|e]; [|done]. simpl.
    by rewrite getattr_missing.
Qed.

(** X4.  The options of the asset select box are the symbols of the
    components in increasing order, each as often as it is a key.  Looking
    any option up never raises, and with a "Security" column every option
    has a label. *)
Theorem asset_options_are_the_sorted_symbols c :
  StronglySorted str_le (asset_options c) ∧
  asset_options c ≡ₚ keys c ∧
  (∀ o, o ∈ asset_options c → returns (loc_getitem o c) = true) ∧
  ("Security" ∈ fields c →
   ∀ show o, o ∈ asset_options c →
     returns (format_symbol_label show o c) = true).
Proof.
  assert (Hperm : asset_options c ≡ₚ keys c) by apply merge_sort_Permutation.
  split_and!; [|done|..].
  - apply (StronglySorted_merge_sort str_le (Transitive0 := str_le_trans)
             (Total0 := str_le_total_rel)).
  - intros o Ho. apply loc_getitem_returns. by rewrite <- Hperm.
  - intros Hf show o Ho. rewrite Hperm in Ho. unfold format_symbol_label.
    apply loc_getitem_returns in Ho.
    destruct (loc_getitem o c) as [company|e]; [|done]. simpl.
    apply (getattr_returns _ _ company) in Hf.
    by destruct (getattr "Security" (fields c) company).
Qed.

Lemma positions_NoDup_single lbl cols :
  NoDup cols → lbl ∈ cols → ∃ k, positions lbl cols = [k].
Proof.
  intros Hnd Hin. unfold positions.
  pose proof (positions_from_filter 0 lbl cols) as Hf.
  destruct (positions_from 0 lbl cols) as [|k [|k' ks]] eqn:E.
  - apply positions_from_nil in E. by destruct E.
  - by exists k.
  - assert (Hnd' : NoDup (filter (λ c, c = lbl) cols)) by by apply NoDup_filter.
    rewrite Hf in Hnd'. simpl in Hnd'.
    apply NoDup_cons in Hnd' as [Hn _]. destruct Hn. left.
Qed.

Lemma getitem_fields_check lbls c :
  forallb (λ l, bool_decide (positions l (fields c) ≠ [])) lbls = true
  ↔ ∀ l, l ∈ lbls → l ∈ fields c.
Proof.
  rewrite forallb_forall. split.
  - intros H l Hl. apply list_elem_of_In, H, bool_decide_eq_true in Hl.
    destruct (decide (l ∈ fields c)) as [|Hn]; [done|].
    by apply (positions_from_nil 0) in Hn.
  - intros H l Hl. apply bool_decide_eq_true. intros E.
    apply (positions_from_nil 0) in E. apply E, H. by apply list_elem_of_In.
Qed.

Lemma filter_label_single lbl cols k :
  positions lbl cols = [k] → filter (λ c, c = lbl) cols = [lbl].
Proof.
  intros H. unfold positions in H. by rewrite (positions_from_filter 0), H.
Qed.

(** X5.  The companies list can be built exactly when the components have
    the four columns "Security", "GICS Sector", "Date added" and "Founded",
    and is a [KeyError] otherwise.  With column labels all different it has
    these four columns in this order, the same keys in the same order, and
    in every row the cells the row has under these labels. *)
Theorem companies_list_shows_four_columns c :
  (returns (companies_list c) = true
   ↔ ∀ l, l ∈ ["Security"; "GICS Sector"; "Date added"; "Founded"] →
          l ∈ fields c) ∧
  (returns (companies_list c) = false → companies_list c = Raised KeyError) ∧
  (NoDup (fields c) →
   (∀ l, l ∈ ["Security"; "GICS Sector"; "Date added"; "Founded"] →
         l ∈ fields c) →
   ∃ c' k1 k2 k3 k4,
     companies_list c = Returned c' ∧
     fields c' = ["Security"; "GICS Sector"; "Date added"; "Founded"] ∧
     keys c' = keys c ∧
     fields c !! k1 = Some "Security" ∧
     fields c !! k2 = Some "GICS Sector" ∧
     fields c !! k3 = Some "Date added" ∧
     fields c !! k4 = Some "Founded" ∧
     entries c'
     = (λ e, (e.1, [text_at k1 e.2; text_at k2 e.2; text_at k3 e.2;
                    text_at k4 e.2])) <$> entries c).
Proof.
  unfold companies_list, getitem_fields. split_and!.
  - rewrite <- getitem_fields_check. by case_match.
  - by case_match.
  - intros Hnd Hall.
    destruct (positions_NoDup_single "Security" (fields c) Hnd) as [k1 H1];
      [apply Hall; set_solver|].
    destruct (positions_NoDup_single "GICS Sector" (fields c) Hnd) as [k2 H2];
      [apply Hall; set_solver|].
    destruct (positions_NoDup_single "Date added" (fields c) Hnd) as [k3 H3];
      [apply Hall; set_solver|].
    destruct (positions_NoDup_single "Founded" (fields c) Hnd) as [k4 H4];
      [apply Hall; set_solver|].
    apply getitem_fields_check in Hall. rewrite Hall.
    eexists _, k1, k2, k3, k4. split; [done|]. simpl.
    rewrite H1, H2, H3, H4.
    rewrite !(filter_label_single _ _ _ H1), !(filter_label_single _ _ _ H2),
      !(filter_label_single _ _ _ H3), !(filter_label_single _ _ _ H4).
    simpl. split_and!; try done; try by apply positions_single_lookup.
    unfold keys. simpl. rewrite <- list_fmap_compose. done.
Qed.

(** ** Runs of [main] on any store, and runs that raise *)

Section more_programs.

Lemma main_quotes_spec download asset quotes w k (σ : Store) :
  load_quotes download asset = Returned quotes →
  positions "Adj Close" (columns quotes) = [k] →
  NoDup (index quotes) → periods_at_least 0 w →
  ∃ q data data_view σ',
    main_quotes download asset w σ = Returned ((data, data_view), σ') ∧
    σ !! q = None ∧ σ !! data = None ∧ σ !! data_view = None ∧
    q ≠ data ∧ q ≠ data_view ∧ data ≠ data_view ∧
    σ' !! q = Some quotes ∧
    σ' !! data = Some (data_of quotes) ∧
    σ' !! data_view = Some (final_view w k (data_of quotes)) ∧
    σ ⊆ σ'.
Proof.
  intros Hq Hk Hnd Hw. unfold main_quotes, mbind, run_bind.
  rewrite Hq. simpl. unfold set_index_name, mbind, run_bind.
  set (q := fresh (dom σ)).
  rewrite (load_some _ quotes) by apply lookup_insert_eq.
  set (σ1 := <[q := quotes]> σ).
  rewrite (load_some _ (dropna quotes)) by apply lookup_insert_eq.
  unfold store. simpl.
  set (ld := fresh (dom σ1)). rewrite insert_insert_eq.
  assert (Hqn : σ !! q = None) by apply new_fresh.
  assert (Hdn : σ1 !! ld = None) by apply new_fresh.
  assert (H1 : σ ⊆ σ1) by by apply insert_subseteq.
  assert (H2 : σ1 ⊆ <[ld := data_of quotes]> σ1) by by apply insert_subseteq.
  destruct (build_view_spec (<[ld := data_of quotes]> σ1) ld (data_of quotes) w k)
    as (lv & σ2 & Hrun & Hv & Hnew & Hsub);
    [apply lookup_insert_eq|done|by apply dropna_index_NoDup|done|].
  change (build_view ld w _) with (build_view ld w (<[ld:=data_of quotes]> σ1)).
  rewrite Hrun. simpl.
  assert (Hq1 : σ1 !! q = Some quotes) by apply lookup_insert_eq.
  exists q, ld, lv, σ2. split_and!; try done.
  - eapply lookup_weaken_None; [done|]. by etrans.
  - eapply lookup_weaken_None; [done|]. by etrans.
  - intros <-. by rewrite Hq1 in Hdn.
  - intros <-. eapply lookup_weaken in Hq1; [|done]. by rewrite Hq1 in Hnew.
  - intros <-. by rewrite lookup_insert_eq in Hnew.
  - eapply lookup_weaken; [|done]. by eapply lookup_weaken.
  - eapply lookup_weaken; [|done]. apply lookup_insert_eq.
  - etrans; [done|]. by etrans.
Qed.

(** [run_main] is [build_view] on a store that holds [data]. *)
Lemma run_main_unfold download asset quotes w :
  load_quotes download asset = Returned quotes →
  ∃ (σ : Store) ld,
    σ !! ld = Some (data_of quotes) ∧
    run_main download asset w
    = match build_view ld w σ with
      | Returned (lv, σ') =>
          match σ' !! ld, σ' !! lv with
          | Some d, Some v => Returned (d, v)
          | _, _ => Raised (Other "ReferenceError")
          end
      | Raised e => Raised e
      end.
Proof.
  intros Hq. unfold run_main, main_quotes, mbind, run_bind.
  rewrite Hq. simpl. unfold set_index_name, mbind, run_bind.
  rewrite (load_some _ quotes) by apply lookup_insert_eq.
  set (σ1 := <[fresh (dom ∅) := quotes]> ∅ : Store).
  rewrite (load_some _ (dropna quotes)) by apply lookup_insert_eq.
  unfold store. simpl. set (ld := fresh (dom σ1)). rewrite insert_insert_eq.
  exists (<[ld := data_of quotes]> σ1), ld. split; [apply lookup_insert_eq|].
  change (build_view ld w _) with (build_view ld w (<[ld:=data_of quotes]> σ1)).
  by destruct (build_view ld w (<[ld:=data_of quotes]> σ1)) as [[lv σ']|e].
Qed.

Lemma window_without_close (σ : Store) ld d n :
  σ !! ld = Some d → "Adj Close" ∉ columns d →
  window ld n σ = Raised KeyError.
Proof.
  intros Hd Hk. apply (positions_from_nil 0) in Hk.
  unfold window, mbind, run_bind. rewrite (load_some _ _ _ Hd).
  unfold new at 1. simpl.
  rewrite (load_some _ (getitem_tail n d)) by apply lookup_insert_eq.
  unfold lift, getitem_list. simpl. unfold positions. by rewrite Hk.
Qed.

Lemma add_sma_repeated_date prefix (σ : Store) ld lv d v p k n :
  σ !! ld = Some d → σ !! lv = Some v →
  positions "Adj Close" (columns d) = [k] → ¬ NoDup (index d) → 0 ≤ p →
  index v = slice_from (- n) (index d) →
  (0 < slice_start (- n) (length (rows d)))%nat →
  add_sma prefix ld lv p σ = Raised ValueError.
Proof.
  intros Hd Hv Hk Hnd Hp Hidx Hm. unfold add_sma, mbind, run_bind.
  rewrite (load_some _ _ _ Hd). unfold lift.
  rewrite (getitem_single _ _ k) by done.
  rewrite rolled_series by done.
  rewrite (load_some _ _ _ Hv).
  set (rolled := zip (index d) (rolled_cells p k d)).
  assert (Hfst : rolled.*1 = index d).
  { apply fst_zip_same. by rewrite index_length, rolled_cells_length. }
  unfold reindex. rewrite Hfst, Hidx. rewrite decide_False.
  - by rewrite decide_False.
  - intros E. apply (f_equal length) in E.
    rewrite slice_from_length, index_length in E.
    assert (length (rows d) ≠ 0%nat); [|lia].
    intros E0. apply Hnd. unfold index.
    destruct (rows d); [constructor|done].
Qed.

End more_programs.

(** ** More properties of the quotes pipeline *)

Lemma StronglySorted_sublist_of {A} (R : relation A) (l l' : list A) :
  StronglySorted R l → l' `sublist_of` l → StronglySorted R l'.
Proof.
  intros Hs Hsub. revert Hs.
  induction Hsub as [|x l1 l2 Hsub IH|x l1 l2 Hsub IH]; intros Hs.
  - constructor.
  - apply StronglySorted_inv in Hs as [Hs Hx]. constructor; [by apply IH|].
    apply Forall_forall. intros y Hy.
    eapply Forall_forall in Hx; [done|]. by eapply elem_of_sublist.
  - apply StronglySorted_inv in Hs as [Hs _]. by apply IH.
Qed.

Lemma increasing_NoDup (l : list Z) : StronglySorted Z.lt l → NoDup l.
Proof.
  induction 1 as [|x l Hs IH Hx]; constructor; [|done].
  intros Hin. eapply Forall_forall in Hx; [|done]. lia.
Qed.

(** X6.  When the loaded quotes have no "Adj Close" column, [main] raises
    [KeyError], whatever the widgets hand back. *)
Theorem main_needs_the_adjusted_close download asset quotes w :
  load_quotes download asset = Returned quotes →
  "Adj Close" ∉ columns quotes →
  run_main download asset w = Raised KeyError.
Proof.
  intros Hq Hno.
  destruct (run_main_unfold download asset quotes w Hq) as (σ & ld & Hd & ->).
  unfold build_view, mbind, run_bind.
  by rewrite (window_without_close σ ld (data_of quotes)).
Qed.

(** X7.  The columns of the view are "Adj Close", then "SMA p" when the
    first box is ticked, then "SMA2 p" when the second is, with the periods
    written in decimal.  Every row of the view has one cell per column, the
    view has [min(n, len(data))] rows also with overlays, and the index of
    [data] and of the view has no name. *)
Theorem view_columns_and_shape download asset quotes w :
  load_quotes download asset = Returned quotes → quote_frame quotes →
  periods_at_least 0 w → 1 ≤ number_of_quotes w →
  ∃ data view,
    run_main download asset w = Returned (data, view) ∧
    columns view = "Adj Close" :: overlay_labels w ∧
    rectangular view ∧
    Z.of_nat (length (rows view))
    = Z.min (number_of_quotes w) (Z.of_nat (length (rows data))) ∧
    index_name data = None ∧ index_name view = None.
Proof.
  intros Hq Hqf Hw Hn.
  destruct (run_main_view download asset quotes w Hq Hqf Hw)
    as (k & Hrun & Hk & Hqs).
  exists (data_of quotes), (final_view w k (data_of quotes)).
  split_and!; try done.
  - unfold final_view, with_overlay, overlay_labels, overlays.
    by destruct (sma w), (sma2 w).
  - unfold final_view. apply with_overlay_rectangular, sma_view_facts.
  - rewrite final_view_rows_length, slice_tail_length by done. lia.
  - unfold final_view, with_overlay. by destruct (sma w), (sma2 w).
Qed.

(** X8.  An overlay column depends on the quotes, the window size and its
    own period only: two runs with the same window size give the same column
    for the same period, whichever of the two boxes carries it and whatever
    the other box does. *)
Theorem overlay_depends_on_its_period_only
    download asset quotes w w' prefix prefix' p :
  load_quotes download asset = Returned quotes → quote_frame quotes →
  periods_at_least 0 w → periods_at_least 0 w' →
  number_of_quotes w = number_of_quotes w' →
  (prefix, Some p) ∈ overlays w → (prefix', Some p) ∈ overlays w' →
  ∃ data view view' overlay,
    run_main download asset w = Returned (data, view) ∧
    run_main download asset w' = Returned (data, view') ∧
    getitem (prefix +:+ pretty p) view = Returned overlay ∧
    getitem (prefix' +:+ pretty p) view' = Returned overlay.
Proof.
  intros Hq Hqf Hw Hw' Hn Hov Hov'.
  destruct (run_main_view download asset quotes w Hq Hqf Hw)
    as (k & Hrun & Hk & Hqs).
  destruct (run_main_view download asset quotes w' Hq Hqf Hw')
    as (k' & Hrun' & Hk' & _).
  assert (k' = k) as -> by congruence.
  eexists _, _, _, _. split_and!; [done|done|by apply final_view_overlay|].
  rewrite Hn. by apply final_view_overlay.
Qed.

(** X10.  When a date occurs twice in the data and the window is shorter
    than the data, a ticked overlay makes [main] raise [ValueError]: the
    rolling mean cannot be aligned on the dates of the view. *)
Theorem repeated_date_breaks_the_overlay download asset quotes w :
  load_quotes download asset = Returned quotes →
  length (positions "Adj Close" (columns quotes)) = 1%nat →
  ¬ NoDup (index (dropna quotes)) →
  periods_at_least 0 w → sma w ≠ None ∨ sma2 w ≠ None →
  1 ≤ number_of_quotes w < Z.of_nat (length (rows (dropna quotes))) →
  run_main download asset w = Raised ValueError.
Proof.
  intros Hq Hadj Hdup Hw Hticked Hn.
  destruct (positions "Adj Close" (columns quotes)) as [|k [|]] eqn:Hk; try done.
  destruct (run_main_unfold download asset quotes w Hq) as (σ & ld & Hd & ->).
  set (d := data_of quotes) in *. set (n := number_of_quotes w) in *.
  destruct (window_spec σ ld d n k Hd Hk) as (lv & σ1 & Hrun & Hv & Hnew & Hsub).
  unfold build_view, mbind, run_bind. fold n. rewrite Hrun.
  assert (Hd1 : σ1 !! ld = Some d) by by eapply lookup_weaken.
  assert (Hm : (0 < slice_start (- n) (length (rows d)))%nat).
  { unfold slice_start.
    change (length (rows d)) with (length (rows (dropna quotes))).
    case_match; lia. }
  destruct (sma w) as [p|] eqn:Hsma; simpl.
  - rewrite (add_sma_repeated_date "SMA " σ1 ld lv d (base_view n k d) p k n);
      try done.
    + apply Hw. by left.
    + apply base_view_index.
  - destruct (sma2 w) as [p|] eqn:Hsma2; simpl; [|by destruct Hticked].
    rewrite (add_sma_repeated_date "SMA2 " σ1 ld lv d (base_view n k d) p k n);
      try done.
    + apply Hw. by right.
    + apply base_view_index.
Qed.

(** X11.  A run of lines 70 to 87 on any store creates three different
    new objects, the loaded quotes, [data] and [data_view], and changes no
    frame that was there.  The loaded quotes stay as loaded, the name of
    their index included: [data] is another object, with the same columns,
    the rows without null, and an index without name. *)
Theorem main_keeps_the_loaded_quotes (σ : Store) download asset quotes w :
  load_quotes download asset = Returned quotes →
  length (positions "Adj Close" (columns quotes)) = 1%nat →
  NoDup (index quotes) → periods_at_least 0 w →
  ∃ q data data_view σ' d v,
    main_quotes download asset w σ = Returned ((data, data_view), σ') ∧
    σ !! q = None ∧ σ !! data = None ∧ σ !! data_view = None ∧
    q ≠ data ∧ q ≠ data_view ∧ data ≠ data_view ∧
    σ' !! q = Some quotes ∧
    σ' !! data = Some d ∧
    index_name d = None ∧ columns d = columns quotes ∧
    rows d = rows (dropna quotes) ∧
    σ' !! data_view = Some v ∧
    (∀ l f, σ !! l = Some f → σ' !! l = Some f).
Proof.
  intros Hq Hadj Hnd Hw.
  destruct (positions "Adj Close" (columns quotes)) as [|k [|]] eqn:Hk; try done.
  destruct (main_quotes_spec download asset quotes w k σ Hq Hk Hnd Hw)
    as (q & data & data_view & σ' & Hrun & H1 & H2 & H3 & H4 & H5 & H6
        & H7 & H8 & H9 & Hsub).
  exists q, data, data_view, σ', (data_of quotes),
    (final_view w k (data_of quotes)).
  split_and!; try done. intros l f Hl. by eapply lookup_weaken.
Qed.

(** X12.  Dates that increase strictly in the loaded quotes increase
    strictly in [data] and in the view; the dates of [data] are dates of the
    quotes in their order, and the dates of the view are the last dates of
    [data]. *)
Theorem dates_stay_increasing download asset quotes w :
  load_quotes download asset = Returned quotes →
  length (positions "Adj Close" (columns quotes)) = 1%nat →
  StronglySorted Z.lt (index quotes) → periods_at_least 0 w →
  ∃ data view,
    run_main download asset w = Returned (data, view) ∧
    StronglySorted Z.lt (index data) ∧
    StronglySorted Z.lt (index view) ∧
    index data `sublist_of` index quotes ∧
    index view `suffix_of` index data.
Proof.
  intros Hq Hadj Hs Hw.
  destruct (positions "Adj Close" (columns quotes)) as [|k [|]] eqn:Hk; try done.
  pose proof (increasing_NoDup _ Hs) as Hnd.
  exists (data_of quotes), (final_view w k (data_of quotes)).
  assert (Hsub : index (data_of quotes) `sublist_of` index quotes).
  { unfold index, data_of, dropna. simpl. apply fmap_sublist, sublist_filter. }
  assert (Hsd : StronglySorted Z.lt (index (data_of quotes)))
    by by eapply StronglySorted_sublist_of.
  split_and!; try done.
  - by apply run_main_spec.
  - rewrite final_view_index. eapply StronglySorted_sublist_of; [done|].
    apply sublist_drop.
  - rewrite final_view_index. apply suffix_drop.
Qed.

(** X13.  The "Adj Close" column of the view has a value that is not NaN at
    every date of the view: no null reaches the base line of the chart. *)
Theorem view_has_every_adjusted_close download asset quotes w :
  load_quotes download asset = Returned quotes → quote_frame quotes →
  periods_at_least 0 w →
  ∃ data view shown,
    run_main download asset w = Returned (data, view) ∧
    getitem "Adj Close" view = Returned shown ∧
    shown.*1 = index view ∧
    Forall (λ x, isna x.2 = false) shown.
Proof.
  intros Hq Hqf Hw.
  destruct (run_main_view download asset quotes w Hq Hqf Hw)
    as (k & Hrun & Hk & Hqs).
  set (data := data_of quotes) in *.
  exists data, (final_view w k data),
    (slice_from (- number_of_quotes w) (close_series k data)).
  assert (Hlen : length (index data) = length (close_cells k data))
    by by rewrite index_length, close_cells_length.
  split_and!; [done|apply final_view_close|..].
  - rewrite final_view_index. unfold close_series.
    by rewrite <- slice_from_fmap, fst_zip_same.
  - apply (Forall_fmap snd (λ c, isna c = false)).
    unfold close_series. rewrite <- slice_from_fmap, snd_zip_same by done.
    unfold slice_from. by apply Forall_drop.
Qed.

(** ** The properties above on the sample data *)

Lemma loc_finds_the_row_of_its_symbol_example :
  positions "Symbol" (header listed_table) = [0%nat] ∧
  NoDup (text_at 0 <$> body listed_table) ∧
  body listed_table !! 1%nat
  = Some ["AOS"; "A. O. Smith"; "Industrials"; "Building Products";
          "Milwaukee, Wisconsin"; "2017-07-26"; "91142"; "1916"] ∧
  ∃ c, load_sp500_components (Returned [listed_table]) = Returned c ∧
       loc_getitem "AOS" c
       = Returned (OneRow ["A. O. Smith"; "Industrials"; "Building Products";
                           "Milwaukee, Wisconsin"; "2017-07-26"; "91142";
                           "1916"]).
Proof.
  assert (H1 : positions "Symbol" (header listed_table) = [0%nat])
    by reflexivity.
  assert (H2 : NoDup (text_at 0 <$> body listed_table)) by compute_done.
  assert (H3 : body listed_table !! 1%nat
               = Some ["AOS"; "A. O. Smith"; "Industrials";
                       "Building Products"; "Milwaukee, Wisconsin";
                       "2017-07-26"; "91142"; "1916"]) by reflexivity.
  split_and!; [done..|].
  exact (loc_finds_the_row_of_its_symbol listed_table [] 0 1 _ H1 H2 H3).
Defined.

Lemma label_is_symbol_dash_security_example :
  positions "Symbol" (header listed_table) = [0%nat] ∧
  positions "Security" (header listed_table) = [1%nat] ∧
  NoDup (text_at 0 <$> body listed_table) ∧
  body listed_table !! 1%nat
  = Some ["AOS"; "A. O. Smith"; "Industrials"; "Building Products";
          "Milwaukee, Wisconsin"; "2017-07-26"; "91142"; "1916"] ∧
  ∃ c, load_sp500_components (Returned [listed_table]) = Returned c ∧
       format_symbol_label show_nothing "AOS" c
       = Returned "AOS - A. O. Smith" ∧
       company_title "AOS" c = Returned (Scalar "A. O. Smith").
Proof.
  assert (H1 : positions "Symbol" (header listed_table) = [0%nat])
    by reflexivity.
  assert (H2 : positions "Security" (header listed_table) = [1%nat])
    by reflexivity.
  assert (H3 : NoDup (text_at 0 <$> body listed_table)) by compute_done.
  assert (H4 : body listed_table !! 1%nat
               = Some ["AOS"; "A. O. Smith"; "Industrials";
                       "Building Products"; "Milwaukee, Wisconsin";
                       "2017-07-26"; "91142"; "1916"]) by reflexivity.
  split_and!; [done..|].
  exact (label_is_symbol_dash_security show_nothing listed_table [] 0 1 1 _
           H1 H2 H3 H4).
Defined.

Lemma companies_list_shows_four_columns_example :
  ∃ c c', load_sp500_components (Returned [listed_table]) = Returned c ∧
          companies_list c = Returned c' ∧
          fields c' = ["Security"; "GICS Sector"; "Date added"; "Founded"] ∧
          keys c' = ["MMM"; "AOS"; "ABT"].
Proof.
  set (c := mkComponents "Symbol" (delete 0%nat (header listed_table))
              ((λ r, (text_at 0 r, delete 0%nat r)) <$> body listed_table)).
  destruct (companies_list_shows_four_columns c) as (_ & _ & H).
  destruct H as (c' & k1 & k2 & k3 & k4 & Hc & Hf & Hk & _).
  - compute_done.
  - intros l Hl.
    repeat (apply elem_of_cons in Hl as [->|Hl]; [compute_done|]).
    by apply elem_of_nil in Hl.
  - exists c, c'. split; [reflexivity|]. split; [done|]. split; [done|].
    rewrite Hk. reflexivity.
Defined.

Lemma main_needs_the_adjusted_close_example :
  load_quotes unadjusted_download "MMM"
  = Returned (mkDataFrame (Some "Date") ["Close"; "Volume"]
                [(1, [5%float; 1000%float])]) ∧
  ("Adj Close" ∉ ["Close"; "Volume"]) ∧
  run_main unadjusted_download "MMM" sample_widgets = Raised KeyError.
Proof.
  assert (H1 : load_quotes unadjusted_download "MMM"
               = Returned (mkDataFrame (Some "Date") ["Close"; "Volume"]
                             [(1, [5%float; 1000%float])]))
    by reflexivity.
  assert (H2 : "Adj Close" ∉ ["Close"; "Volume"]) by compute_done.
  split_and!; [done..|].
  exact (main_needs_the_adjusted_close unadjusted_download "MMM" _
           sample_widgets H1 H2).
Defined.

Lemma view_columns_and_shape_example :
  load_quotes sample_download "MMM" = Returned sample_quotes ∧
  quote_frame sample_quotes ∧
  periods_at_least 0 sample_widgets ∧
  1 ≤ number_of_quotes sample_widgets ∧
  ∃ data view,
    run_main sample_download "MMM" sample_widgets = Returned (data, view) ∧
    columns view = ["Adj Close"; "SMA 5"; "SMA2 35"] ∧
    rectangular view ∧
    Z.of_nat (length (rows view))
    = Z.min (number_of_quotes sample_widgets) (Z.of_nat (length (rows data))) ∧
    index_name data = None ∧ index_name view = None.
Proof.
  assert (H1 := sample_quotes_loaded).
  assert (H2 := sample_quotes_frame).
  assert (H3 : periods_at_least 0 sample_widgets) by (apply sample_periods; lia).
  assert (H4 : 1 ≤ number_of_quotes sample_widgets) by (simpl; lia).
  split_and!; [done..|].
  exact (view_columns_and_shape sample_download "MMM" sample_quotes
           sample_widgets H1 H2 H3 H4).
Defined.

Lemma overlay_depends_on_its_period_only_example :
  load_quotes sample_download "MMM" = Returned sample_quotes ∧
  quote_frame sample_quotes ∧
  periods_at_least 0 sample_widgets ∧
  periods_at_least 0 (mkWidgets 30 (Some 35) None) ∧
  number_of_quotes sample_widgets
  = number_of_quotes (mkWidgets 30 (Some 35) None) ∧
  ("SMA2 ", Some 35) ∈ overlays sample_widgets ∧
  ("SMA ", Some 35) ∈ overlays (mkWidgets 30 (Some 35) None) ∧
  ∃ data view view' overlay,
    run_main sample_download "MMM" sample_widgets = Returned (data, view) ∧
    run_main sample_download "MMM" (mkWidgets 30 (Some 35) None)
    = Returned (data, view') ∧
    getitem "SMA2 35" view = Returned overlay ∧
    getitem "SMA 35" view' = Returned overlay.
Proof.
  assert (H1 := sample_quotes_loaded).
  assert (H2 := sample_quotes_frame).
  assert (H3 : periods_at_least 0 sample_widgets) by (apply sample_periods; lia).
  assert (H4 : periods_at_least 0 (mkWidgets 30 (Some 35) None)).
  { intros p [[= <-]|[=]]. lia. }
  assert (H5 : number_of_quotes sample_widgets
               = number_of_quotes (mkWidgets 30 (Some 35) None)) by reflexivity.
  assert (H6 : ("SMA2 ", Some 35) ∈ overlays sample_widgets) by (right; left).
  assert (H7 : ("SMA ", Some 35) ∈ overlays (mkWidgets 30 (Some 35) None))
    by left.
  split_and!; [done..|].
  exact (overlay_depends_on_its_period_only sample_download "MMM"
           sample_quotes sample_widgets (mkWidgets 30 (Some 35) None)
           "SMA2 " "SMA " 35 H1 H2 H3 H4 H5 H6 H7).
Defined.

Lemma repeated_date_breaks_the_overlay_example :
  load_quotes repeated_date_download "MMM" = Returned repeated_date_quotes ∧
  length (positions "Adj Close" (columns repeated_date_quotes)) = 1%nat ∧
  ¬ NoDup (index (dropna repeated_date_quotes)) ∧
  periods_at_least 0 sample_widgets ∧
  (sma sample_widgets ≠ None ∨ sma2 sample_widgets ≠ None) ∧
  1 ≤ number_of_quotes sample_widgets
  < Z.of_nat (length (rows (dropna repeated_date_quotes))) ∧
  run_main repeated_date_download "MMM" sample_widgets = Raised ValueError.
Proof.
  assert (H1 : load_quotes repeated_date_download "MMM"
               = Returned repeated_date_quotes) by reflexivity.
  assert (H2 : length (positions "Adj Close" (columns repeated_date_quotes))
               = 1%nat) by reflexivity.
  assert (H3 : ¬ NoDup (index (dropna repeated_date_quotes))) by compute_done.
  assert (H4 : periods_at_least 0 sample_widgets) by (apply sample_periods; lia).
  assert (H5 : sma sample_widgets ≠ None ∨ sma2 sample_widgets ≠ None)
    by (left; discriminate).
  assert (H6 : 1 ≤ number_of_quotes sample_widgets
               < Z.of_nat (length (rows (dropna repeated_date_quotes))))
    by compute_done.
  split_and!; [done..|].
  exact (repeated_date_breaks_the_overlay repeated_date_download "MMM"
           repeated_date_quotes sample_widgets H1 H2 H3 H4 H5 H6).
Defined.

Lemma main_keeps_the_loaded_quotes_example :
  load_quotes sample_download "MMM" = Returned sample_quotes ∧
  length (positions "Adj Close" (columns sample_quotes)) = 1%nat ∧
  NoDup (index sample_quotes) ∧
  periods_at_least 0 sample_widgets ∧
  ∃ q data data_view σ' d v,
    main_quotes sample_download "MMM" sample_widgets sample_store
    = Returned ((data, data_view), σ') ∧
    sample_store !! q = None ∧ sample_store !! data = None ∧
    sample_store !! data_view = None ∧
    q ≠ data ∧ q ≠ data_view ∧ data ≠ data_view ∧
    σ' !! q = Some sample_quotes ∧
    σ' !! data = Some d ∧
    index_name d = None ∧ columns d = columns sample_quotes ∧
    rows d = rows (dropna sample_quotes) ∧
    σ' !! data_view = Some v ∧
    (∀ l f, sample_store !! l = Some f → σ' !! l = Some f).
Proof.
  assert (H1 := sample_quotes_loaded).
  assert (H2 : length (positions "Adj Close" (columns sample_quotes)) = 1%nat)
    by reflexivity.
  assert (H3 : NoDup (index sample_quotes)) by compute_done.
  assert (H4 : periods_at_least 0 sample_widgets) by (apply sample_periods; lia).
  split_and!; [done..|].
  exact (main_keeps_the_loaded_quotes sample_store sample_download "MMM"
           sample_quotes sample_widgets H1 H2 H3 H4).
Defined.

Lemma dates_stay_increasing_example :
  load_quotes sample_download "MMM" = Returned sample_quotes ∧
  length (positions "Adj Close" (columns sample_quotes)) = 1%nat ∧
  StronglySorted Z.lt (index sample_quotes) ∧
  periods_at_least 0 sample_widgets ∧
  ∃ data view,
    run_main sample_download "MMM" sample_widgets = Returned (data, view) ∧
    StronglySorted Z.lt (index data) ∧
    StronglySorted Z.lt (index view) ∧
    index data `sublist_of` index sample_quotes ∧
    index view `suffix_of` index data.
Proof.
  assert (H1 := sample_quotes_loaded).
  assert (H2 : length (positions "Adj Close" (columns sample_quotes)) = 1%nat)
    by reflexivity.
  assert (H3 : StronglySorted Z.lt (index sample_quotes)) by compute_done.
  assert (H4 : periods_at_least 0 sample_widgets) by (apply sample_periods; lia).
  split_and!; [done..|].
  exact (dates_stay_increasing sample_download "MMM" sample_quotes
           sample_widgets H1 H2 H3 H4).
Defined.

Lemma view_has_every_adjusted_close_example :
  load_quotes sample_download "MMM" = Returned sample_quotes ∧
  quote_frame sample_quotes ∧
  periods_at_least 0 sample_widgets ∧
  ∃ data view shown,
    run_main sample_download "MMM" sample_widgets = Returned (data, view) ∧
    getitem "Adj Close" view = Returned shown ∧
    shown.*1 = index view ∧
    Forall (λ x, isna x.2 = false) shown.
Proof.
  assert (H1 := sample_quotes_loaded).
  assert (H2 := sample_quotes_frame).
  assert (H3 : periods_at_least 0 sample_widgets) by (apply sample_periods; lia).
  split_and!; [done..|].
  exact (view_has_every_adjusted_close sample_download "MMM" sample_quotes
           sample_widgets H1 H2 H3).
Defined.
